(** * Airtable MCP server: the REST client adapter and its tool surface

    A shallow embedding of [src/airtable_mcp/client.py] and
    [src/airtable_mcp/server.py].

    - Python values decoded from JSON are the inductive type [json];
      dictionaries are association lists in insertion order.
    - Exceptions are the inductive type [exn]; fallible synchronous code
      returns a [result].
    - [async def] methods are terms of the free monad [coro], whose
      constructors are the effects the methods perform: reading and
      writing the [_client] field of [self], constructing an
      [httpx.AsyncClient], and the two awaited calls on which a coroutine
      really suspends (sending a request, closing the session).
    - [run] executes a coroutine to completion against a network oracle;
      [advance] executes it up to its next suspension, which is what an
      event loop does between two switches of task. *)

From Stdlib Require Import Ascii String ZArith Lia.
From stdpp Require Import base strings gmap pretty.

Set Warnings "-register-all".

Open Scope Z_scope.

(** ** Values decoded from a JSON document *)

(** [None], [bool], [int], [float], [str], [list] and [dict].  A [str] is a
    sequence of characters with code point below 256.  A [float] is carried
    by its [repr], the shortest decimal text that reads back as the same
    number.  The keys of a [dict] are strings. *)
Inductive json : Type :=
| JNone
| JBool (b : bool)
| JInt (n : Z)
| JFloat (repr : string)
| JStr (s : string)
| JList (xs : list json)
| JDict (kvs : list (string * json)).

(** ** Exceptions *)

(** [AirtableError] is the class of the repository; the others are raised
    by the interpreter, by [json] decoding and by [httpx]. *)
Inductive exn : Type :=
| AirtableError (msg : string)
| KeyError (key : json)
| IndexError
| TypeError
| AttributeError
| JSONDecodeError
| RuntimeError
| TransportError.

Definition is_AirtableError (e : exn) : bool :=
  match e with AirtableError _ => true | _ => false end.

Definition message (e : exn) : option string :=
  match e with AirtableError msg => Some msg | _ => None end.

Inductive result (A : Type) : Type :=
| Ok (a : A)
| Exc (e : exn).
Arguments Ok {A} a.
Arguments Exc {A} e.

Definition result_bind {A B} (f : A -> result B) (r : result A) : result B :=
  match r with
  | Ok a => f a
  | Exc e => Exc e
  end.

#[global] Instance result_mret : MRet result := @Ok.
#[global] Instance result_mbind : MBind result := @result_bind.

Definition returned {A} (r : result A) : bool :=
  match r with Ok _ => true | Exc _ => false end.

(** ** The operations of the interpreter the client uses on decoded values *)

Fixpoint dict_lookup (key : string) (kvs : list (string * json)) : option json :=
  match kvs with
  | [] => None
  | (k, v) :: rest => if String.eqb k key then Some v else dict_lookup key rest
  end.

(** [d.get(key, default)]: only a [dict] has the method. *)
Definition py_get (d : json) (key : string) (default : json) : result json :=
  match d with
  | JDict kvs => Ok (from_option id default (dict_lookup key kvs))
  | _ => Exc AttributeError
  end.

(** [d[key]] with a string key. *)
Definition py_getitem (d : json) (key : string) : result json :=
  match d with
  | JDict kvs =>
      match dict_lookup key kvs with
      | Some v => Ok v
      | None => Exc (KeyError (JStr key))
      end
  | _ => Exc TypeError
  end.

(** The position an integer subscript denotes in a sequence of length [len]:
    negative subscripts count from the end. *)
Definition py_position (len : nat) (i : Z) : option nat :=
  let j := if i <? 0 then i + Z.of_nat len else i in
  if (0 <=? j) && (j <? Z.of_nat len) then Some (Z.to_nat j) else None.

Fixpoint string_nth (s : string) (n : nat) : option ascii :=
  match s, n with
  | EmptyString, _ => None
  | String c _, O => Some c
  | String _ rest, S m => string_nth rest m
  end.

(** [v[i]] with an integer subscript: an element of a [list], a character
    of a [str]; a [dict] decoded from JSON has no integer key. *)
Definition py_getitem_int (v : json) (i : Z) : result json :=
  match v with
  | JList xs =>
      match py_position (length xs) i ≫= (xs !!.) with
      | Some x => Ok x
      | None => Exc IndexError
      end
  | JStr s =>
      match py_position (String.length s) i ≫= string_nth s with
      | Some c => Ok (JStr (String c EmptyString))
      | None => Exc IndexError
      end
  | JDict _ => Exc (KeyError (JInt i))
  | _ => Exc TypeError
  end.

(** *** [repr] and [str], as an f-string applies them *)

Definition dquote : ascii := ascii_of_nat 34.
Definition squote : ascii := ascii_of_nat 39.
Definition backslash : ascii := ascii_of_nat 92.

Fixpoint str_mem (c : ascii) (s : string) : bool :=
  match s with
  | EmptyString => false
  | String d rest => Ascii.eqb c d || str_mem c rest
  end.

Definition hex_digit (n : N) : ascii :=
  ascii_of_N (if (n <? 10)%N then 48 + n else 87 + n)%N.

Definition repr_char (quote c : ascii) : string :=
  let n := N_of_ascii c in
  if Ascii.eqb c quote || Ascii.eqb c backslash then String backslash (String c EmptyString)
  else if (n =? 9)%N then String backslash "t"
  else if (n =? 10)%N then String backslash "n"
  else if (n =? 13)%N then String backslash "r"
  else if (n <? 32)%N || (n =? 127)%N || ((128 <=? n)%N && (n <=? 160)%N) || (n =? 173)%N
  then String backslash (String "x" (String (hex_digit (n / 16)) (String (hex_digit (n mod 16)) EmptyString)))
  else String c EmptyString.

Fixpoint repr_chars (quote : ascii) (s : string) : string :=
  match s with
  | EmptyString => EmptyString
  | String c rest => repr_char quote c +:+ repr_chars quote rest
  end.

Definition repr_str (s : string) : string :=
  let quote := if str_mem squote s && negb (str_mem dquote s) then dquote else squote in
  String quote (repr_chars quote s) +:+ String quote EmptyString.

Fixpoint py_repr (v : json) : string :=
  match v with
  | JNone => "None"
  | JBool true => "True"
  | JBool false => "False"
  | JInt n => pretty n
  | JFloat r => r
  | JStr s => repr_str s
  | JList xs =>
      "[" +:+
      (fix items (l : list json) : string :=
         match l with
         | [] => ""
         | x :: rest =>
             match rest with
             | [] => py_repr x
             | _ :: _ => py_repr x +:+ ", " +:+ items rest
             end
         end) xs
      +:+ "]"
  | JDict kvs =>
      "{" +:+
      (fix items (l : list (string * json)) : string :=
         match l with
         | [] => ""
         | (k, x) :: rest =>
             match rest with
             | [] => repr_str k +:+ ": " +:+ py_repr x
             | _ :: _ => repr_str k +:+ ": " +:+ py_repr x +:+ ", " +:+ items rest
             end
         end) kvs
      +:+ "}"
  end.

(** What [f"{v}"] inserts: the text itself for a [str], the [repr] of
    anything else. *)
Definition py_str (v : json) : string :=
  match v with
  | JStr s => s
  | _ => py_repr v
  end.

(** ** Requests and responses *)

Inductive method : Type := GET | POST | PATCH.

(** A query parameter is an [int] or a [str]. *)
Inductive param : Type :=
| PInt (n : Z)
| PStr (s : string).

(** What is handed to [client.get], [client.post] or [client.patch]: the
    path, the [params=] keyword and the [json=] keyword when given. *)
Record request : Type := Request {
  meth : method;
  path : string;
  params : option (gmap string param);
  body : option json
}.

(** An [httpx.Response]: the status, the raw text, and what [.json()]
    decodes from it ([None] when the text is not a JSON document). *)
Record Response : Type := mkResponse {
  status_code : Z;
  text : string;
  decoded : option json
}.

Definition json_of (response : Response) : result json :=
  match decoded response with
  | Some v => Ok v
  | None => Exc JSONDecodeError
  end.

(** [httpx.Response.is_success]. *)
Definition is_success (response : Response) : bool :=
  (200 <=? status_code response) && (status_code response <=? 299).

(** ** client.py *)

Definition BASE_URL : string := "https://api.airtable.com/v0".

(** An [httpx.AsyncClient], identified by the order of its construction. *)
Record AsyncClient : Type := mkAsyncClient {
  sid : nat;
  base_url : string;
  headers : list (string * string);
  timeout : Z
}.

Record AirtableClient : Type := mkAirtableClient {
  api_key : string;
  _client : option AsyncClient
}.

Definition truthy (s : option string) : bool :=
  match s with
  | Some s => negb (String.eqb s "")
  | None => false
  end.

Definition CONFIG_MESSAGE : string :=
  "AIRTABLE_API_KEY environment variable is required. " +:+
  "Get your API key at https://airtable.com/create/tokens".

(** [AirtableClient.__init__], given the process environment. *)
Definition __init__ (environ : gmap string string) (key : option string)
  : result AirtableClient :=
  let chosen := if truthy key then key else environ !! "AIRTABLE_API_KEY" in
  match chosen with
  | Some k =>
      if truthy (Some k) then Ok {| api_key := k; _client := None |}
      else Exc (AirtableError CONFIG_MESSAGE)
  | None => Exc (AirtableError CONFIG_MESSAGE)
  end.

Definition _handle_error (response : Response) : result unit :=
  if status_code response =? 401 then
    Exc (AirtableError "Invalid API key. Check your AIRTABLE_API_KEY.")
  else if status_code response =? 403 then
    Exc (AirtableError "Permission denied. Your API key lacks access to this resource.")
  else if status_code response =? 404 then
    Exc (AirtableError "Not found. Check that the base/table/record ID is correct.")
  else if status_code response =? 422 then
    payload ← json_of response;
    error ← py_get payload "error" (JDict []);
    detail ← py_get error "message" (JStr "Unknown error");
    Exc (AirtableError ("Invalid request: " +:+ py_str detail))
  else if status_code response =? 429 then
    Exc (AirtableError "Rate limited. Airtable allows 5 requests/second. Wait and retry.")
  else if negb (is_success response) then
    Exc (AirtableError ("Airtable API error: " +:+ pretty (status_code response)
                        +:+ " - " +:+ text response))
  else Ok tt.

(** ** Coroutines *)

(** The effects of an [async def] method of the client.  The first four
    run without giving up control; a coroutine suspends only on the two
    awaited calls into [httpx]. *)
Inductive coro (A : Type) : Type :=
| Return (a : A)
| Raise (e : exn)
| ReadSession (k : option AsyncClient -> coro A)
| WriteSession (v : option AsyncClient) (k : coro A)
| ReadKey (k : string -> coro A)
| Construct (url : string) (hdrs : list (string * string)) (tmo : Z)
            (k : AsyncClient -> coro A)
| AwaitSend (c : AsyncClient) (r : request) (k : Response -> coro A)
| AwaitAclose (c : AsyncClient) (k : coro A).
Arguments Return {A} a.
Arguments Raise {A} e.
Arguments ReadSession {A} k.
Arguments WriteSession {A} v k.
Arguments ReadKey {A} k.
Arguments Construct {A} url hdrs tmo k.
Arguments AwaitSend {A} c r k.
Arguments AwaitAclose {A} c k.

Fixpoint coro_bind {A B} (f : A -> coro B) (p : coro A) : coro B :=
  match p with
  | Return a => f a
  | Raise e => Raise e
  | ReadSession k => ReadSession (fun v => coro_bind f (k v))
  | WriteSession v k => WriteSession v (coro_bind f k)
  | ReadKey k => ReadKey (fun v => coro_bind f (k v))
  | Construct url hdrs tmo k => Construct url hdrs tmo (fun c => coro_bind f (k c))
  | AwaitSend c r k => AwaitSend c r (fun resp => coro_bind f (k resp))
  | AwaitAclose c k => AwaitAclose c (coro_bind f k)
  end.

#[global] Instance coro_mret : MRet coro := @Return.
#[global] Instance coro_mbind : MBind coro := @coro_bind.

(** Synchronous code called from a coroutine. *)
Definition lift {A} (r : result A) : coro A :=
  match r with
  | Ok a => Return a
  | Exc e => Raise e
  end.

Definition read_session : coro (option AsyncClient) := ReadSession Return.
Definition write_session (v : option AsyncClient) : coro unit := WriteSession v (Return tt).
Definition read_key : coro string := ReadKey Return.
Definition construct (url : string) (hdrs : list (string * string)) (tmo : Z)
  : coro AsyncClient := Construct url hdrs tmo Return.

(** [await client.get(...)], [await client.post(...)] and
    [await client.patch(...)] on what [_get_client] returned. *)
Definition http (m : method) (client : option AsyncClient) (url : string)
    (query : option (gmap string param)) (payload : option json) : coro Response :=
  match client with
  | Some c => AwaitSend c (Request m url query payload) Return
  | None => Raise AttributeError
  end.

(** [await client.aclose()]. *)
Definition aclose (client : option AsyncClient) : coro unit :=
  match client with
  | Some c => AwaitAclose c (Return tt)
  | None => Raise AttributeError
  end.

(** ** The methods of [AirtableClient] *)

Definition _get_client : coro (option AsyncClient) :=
  cur ← read_session;
  match cur with
  | None =>
      key ← read_key;
      c ← construct BASE_URL
            [("Authorization", "Bearer " +:+ key);
             ("Content-Type", "application/json")] 30;
      write_session (Some c)
  | Some _ => Return tt
  end;;
  read_session.

Definition close : coro unit :=
  cur ← read_session;
  match cur with
  | Some _ =>
      cur ← read_session;
      aclose cur;;
      write_session None
  | None => Return tt
  end.

Definition list_bases : coro json :=
  client ← _get_client;
  response ← http GET client "/meta/bases" None None;
  lift (_handle_error response);;
  lift (payload ← json_of response; py_get payload "bases" (JList [])).

Definition list_tables (base_id : string) : coro json :=
  client ← _get_client;
  response ← http GET client ("/meta/bases/" +:+ base_id +:+ "/tables") None None;
  lift (_handle_error response);;
  lift (payload ← json_of response; py_get payload "tables" (JList [])).

Definition list_records (base_id table_id_or_name : string)
    (max_records : option Z) (filter_formula : option string) : coro json :=
  client ← _get_client;
  let params : gmap string param := ∅ in
  let params :=
    match max_records with
    | Some n => <["maxRecords" := PInt n]> params
    | None => params
    end in
  let params :=
    match filter_formula with
    | Some f => <["filterByFormula" := PStr f]> params
    | None => params
    end in
  response ← http GET client ("/" +:+ base_id +:+ "/" +:+ table_id_or_name)
                  (Some params) None;
  lift (_handle_error response);;
  lift (payload ← json_of response; py_get payload "records" (JList [])).

Definition create_record (base_id table_id_or_name : string)
    (fields : list (string * json)) : coro json :=
  client ← _get_client;
  let payload := JDict [("records", JList [JDict [("fields", JDict fields)]])] in
  response ← http POST client ("/" +:+ base_id +:+ "/" +:+ table_id_or_name)
                  None (Some payload);
  lift (_handle_error response);;
  lift (payload ← json_of response;
        records ← py_getitem payload "records";
        py_getitem_int records 0).

Definition update_record (base_id table_id_or_name record_id : string)
    (fields : list (string * json)) : coro json :=
  client ← _get_client;
  let payload := JDict [("fields", JDict fields)] in
  response ← http PATCH client
                  ("/" +:+ base_id +:+ "/" +:+ table_id_or_name +:+ "/" +:+ record_id)
                  None (Some payload);
  lift (_handle_error response);;
  lift (json_of response).

(** ** Execution *)

(** What the client can observe and change outside itself: how many
    sessions were constructed, which of them are open, and the requests
    handed to them, oldest first. *)
Record world : Type := mkWorld {
  created : nat;
  live : gset nat;
  sent : list (nat * request)
}.

Definition fresh_world : world := mkWorld 0 ∅ [].

Definition set_session (self : AirtableClient) (v : option AsyncClient) : AirtableClient :=
  {| api_key := api_key self; _client := v |}.

Definition open_session (w : world) : world :=
  {| created := S (created w); live := {[created w]} ∪ live w; sent := sent w |}.

Definition close_session (c : AsyncClient) (w : world) : world :=
  {| created := created w; live := live w ∖ {[sid c]}; sent := sent w |}.

Definition log_request (c : AsyncClient) (r : request) (w : world) : world :=
  {| created := created w; live := live w; sent := sent w ++ [(sid c, r)] |}.

(** A task of the event loop. *)
Inductive task (A : Type) : Type :=
| Ready (p : coro A)
| AwaitingReply (c : AsyncClient) (k : Response -> coro A)
| AwaitingClose (c : AsyncClient) (k : coro A)
| Finished (r : result A).
Arguments Ready {A} p.
Arguments AwaitingReply {A} c k.
Arguments AwaitingClose {A} c k.
Arguments Finished {A} r.

(** Run a coroutine up to its next suspension.  A request on a closed
    session is refused by [httpx] with a [RuntimeError]; [aclose] marks the
    session closed before it suspends. *)
Fixpoint advance {A} (p : coro A) (self : AirtableClient) (w : world)
  : task A * AirtableClient * world :=
  match p with
  | Return a => (Finished (Ok a), self, w)
  | Raise e => (Finished (Exc e), self, w)
  | ReadSession k => advance (k (_client self)) self w
  | WriteSession v k => advance k (set_session self v) w
  | ReadKey k => advance (k (api_key self)) self w
  | Construct url hdrs tmo k =>
      advance (k (mkAsyncClient (created w) url hdrs tmo)) self (open_session w)
  | AwaitSend c r k =>
      if decide (sid c ∈ live w)
      then (AwaitingReply c k, self, log_request c r w)
      else (Finished (Exc RuntimeError), self, w)
  | AwaitAclose c k => (AwaitingClose c k, self, close_session c w)
  end.

(** The remote side, as a caller that awaits each call sees it: the answer
    to the latest request of the log, a response or a failure of the
    transport. *)
Definition network : Type := list (nat * request) -> result Response.

(** Run a coroutine to completion, nothing else running in between. *)
Fixpoint run {A} (net : network) (p : coro A) (self : AirtableClient) (w : world)
  : result A * AirtableClient * world :=
  match p with
  | Return a => (Ok a, self, w)
  | Raise e => (Exc e, self, w)
  | ReadSession k => run net (k (_client self)) self w
  | WriteSession v k => run net k (set_session self v) w
  | ReadKey k => run net (k (api_key self)) self w
  | Construct url hdrs tmo k =>
      run net (k (mkAsyncClient (created w) url hdrs tmo)) self (open_session w)
  | AwaitSend c r k =>
      if decide (sid c ∈ live w)
      then match net (sent (log_request c r w)) with
           | Ok response => run net (k response) self (log_request c r w)
           | Exc e => (Exc e, self, log_request c r w)
           end
      else (Exc RuntimeError, self, w)
  | AwaitAclose c k => run net k self (close_session c w)
  end.

(** ** server.py *)

Module Server.

(** The state of the module is its global [_client], an
    [AirtableClient] or [None]; the tools reach the client through it,
    so what a method does to the client is seen by the next call. *)
Definition get_client (environ : gmap string string) (_client : option AirtableClient)
  : result AirtableClient * option AirtableClient :=
  match _client with
  | None =>
      match __init__ environ None with
      | Ok c => (Ok c, Some c)
      | Exc e => (Exc e, None)
      end
  | Some c => (Ok c, Some c)
  end.

(** [await get_client().method(...)]. *)
Definition await_on_client (net : network) (environ : gmap string string)
    (method : coro json) (_client : option AirtableClient) (w : world)
  : result json * option AirtableClient * world :=
  match get_client environ _client with
  | (Ok c, _) =>
      let '(r, c', w') := run net method c w in (r, Some c', w')
  | (Exc e, g) => (Exc e, g, w)
  end.

Definition list_bases (net : network) (environ : gmap string string) :=
  await_on_client net environ list_bases.

Definition list_tables (net : network) (environ : gmap string string)
    (base_id : string) :=
  await_on_client net environ (list_tables base_id).

(** An argument the caller leaves out is [None] here; [max_records]
    then takes its default, 100. *)
Definition list_records (net : network) (environ : gmap string string)
    (base_id table_id_or_name : string)
    (max_records : option Z) (filter_formula : option string) :=
  await_on_client net environ
    (list_records base_id table_id_or_name
       (Some (default 100 max_records)) filter_formula).

Definition create_record (net : network) (environ : gmap string string)
    (base_id table_id_or_name : string) (fields : list (string * json)) :=
  await_on_client net environ (create_record base_id table_id_or_name fields).

Definition update_record (net : network) (environ : gmap string string)
    (base_id table_id_or_name record_id : string) (fields : list (string * json)) :=
  await_on_client net environ
    (update_record base_id table_id_or_name record_id fields).

End Server.

(** ** Calls on one client *)

(** The five operations, with their arguments. *)
Inductive operation : Type :=
| ListBases
| ListTables (base_id : string)
| ListRecords (base_id table_id_or_name : string)
              (max_records : option Z) (filter_formula : option string)
| CreateRecord (base_id table_id_or_name : string) (fields : list (string * json))
| UpdateRecord (base_id table_id_or_name record_id : string)
               (fields : list (string * json)).

Definition invoke (o : operation) : coro json :=
  match o with
  | ListBases => list_bases
  | ListTables b => list_tables b
  | ListRecords b t m f => list_records b t m f
  | CreateRecord b t fs => create_record b t fs
  | UpdateRecord b t r fs => update_record b t r fs
  end.

(** A caller awaits operations and [close] one after the other. *)
Inductive call : Type :=
| Op (o : operation)
| Close.

Definition perform (net : network) (c : call) (st : AirtableClient * world)
  : AirtableClient * world :=
  match c with
  | Op o => let '(_, self, w) := run net (invoke o) st.1 st.2 in (self, w)
  | Close => let '(_, self, w) := run net close st.1 st.2 in (self, w)
  end.

Definition perform_all (net : network) (cs : list call) (st : AirtableClient * world)
  : AirtableClient * world :=
  foldl (fun st c => perform net c st) st cs.

(** ** The event loop *)

(** Tasks share the client.  The loop runs one task at a time, from where
    it stands to its next suspension; which task runs next, and when the
    answer to a pending request arrives, is the schedule. *)
Record loop : Type := mkLoop {
  tasks : list (task json);
  shared : AirtableClient;
  outside : world
}.

Inductive event : Type :=
| Start (i : nat)
| Deliver (i : nat) (reply : result Response)
| Closed (i : nat).

Definition settle (i : nat) (st : loop)
    (r : task json * AirtableClient * world) : loop :=
  {| tasks := <[i := r.1.1]> (tasks st); shared := r.1.2; outside := r.2 |}.

(** An event that does not apply to the state of its task changes nothing. *)
Definition step (st : loop) (ev : event) : loop :=
  match ev with
  | Start i =>
      match tasks st !! i with
      | Some (Ready p) => settle i st (advance p (shared st) (outside st))
      | _ => st
      end
  | Deliver i reply =>
      match tasks st !! i with
      | Some (AwaitingReply _ k) =>
          match reply with
          | Ok response => settle i st (advance (k response) (shared st) (outside st))
          | Exc e => settle i st (Finished (Exc e), shared st, outside st)
          end
      | _ => st
      end
  | Closed i =>
      match tasks st !! i with
      | Some (AwaitingClose _ k) => settle i st (advance k (shared st) (outside st))
      | _ => st
      end
  end.

Definition exec (schedule : list event) (st : loop) : loop :=
  foldl step st schedule.

(** Operations issued together on a client. *)
Definition spawn (self : AirtableClient) (w : world) (os : list operation) : loop :=
  {| tasks := (fun o => Ready (invoke o)) <$> os; shared := self; outside := w |}.

Definition started {A} (t : task A) : bool :=
  match t with Ready _ => false | _ => true end.

Definition finished {A} (t : task A) : bool :=
  match t with Finished _ => true | _ => false end.

(** * Properties *)

(** ** Execution of composed coroutines *)

Section Execution.
Context {A B : Type}.
Implicit Types (self : AirtableClient) (w : world) (net : network).

Lemma run_bind net (p : coro A) (f : A -> coro B) self w :
  run net (p ≫= f) self w =
  match run net p self w with
  | (Ok a, self', w') => run net (f a) self' w'
  | (Exc e, self', w') => (Exc e, self', w')
  end.
Proof.
  revert self w.
  induction p as [a|e|k IH|v k IH|k IH|url hdrs tmo k IH|c r k IH|c k IH];
    intros self w; cbn; auto.
  case_decide; [|done].
  destruct (net _); [apply IH | done].
Qed.

Lemma run_lift net (x : result A) self w : run net (lift x) self w = (x, self, w).
Proof. by destruct x. Qed.

Lemma run_lift_bind net (x : result A) (f : A -> coro B) self w :
  run net (lift x ≫= f) self w =
  match x with
  | Ok a => run net (f a) self w
  | Exc e => (Exc e, self, w)
  end.
Proof. by destruct x. Qed.

Lemma advance_lift (x : result A) self w :
  advance (lift x) self w = (Finished x, self, w).
Proof. by destruct x. Qed.

Lemma advance_lift_bind (x : result A) (f : A -> coro B) self w :
  advance (lift x ≫= f) self w =
  match x with
  | Ok a => advance (f a) self w
  | Exc e => (Finished (Exc e), self, w)
  end.
Proof. by destruct x. Qed.

End Execution.

(** Running to completion is the schedule of a single task whose awaited
    calls are answered at once. *)
Lemma run_advance {A} (net : network) (p : coro A) self w :
  run net p self w =
  match advance p self w with
  | (Finished r, self', w') => (r, self', w')
  | (AwaitingReply _ k, self', w') =>
      match net (sent w') with
      | Ok response => run net (k response) self' w'
      | Exc e => (Exc e, self', w')
      end
  | (AwaitingClose _ k, self', w') => run net k self' w'
  | (Ready q, self', w') => run net q self' w'
  end.
Proof.
  revert self w.
  induction p as [a|e|k IH|v k IH|k IH|url hdrs tmo k IH|c r k IH|c k IH];
    intros self w; cbn; auto.
  by case_decide.
Qed.

(** ** Session acquisition *)

(** The session [_get_client] constructs when the field is [None]. *)
Definition new_session (self : AirtableClient) (w : world) : AsyncClient :=
  mkAsyncClient (created w) BASE_URL
    [("Authorization", "Bearer " +:+ api_key self);
     ("Content-Type", "application/json")] 30.

(** The session an operation uses, and the client and the world once it
    has it. *)
Definition acquired (self : AirtableClient) (w : world)
  : AsyncClient * AirtableClient * world :=
  match _client self with
  | Some c => (c, self, w)
  | None => (new_session self w, set_session self (Some (new_session self w)),
             open_session w)
  end.

(** The sessions of the client that are open are the one its field holds,
    if any. *)
Definition consistent (self : AirtableClient) (w : world) : Prop :=
  live w = match _client self with Some c => {[sid c]} | None => ∅ end.

Lemma run_get_client net self w :
  run net _get_client self w = (Ok (Some (acquired self w).1.1),
                                (acquired self w).1.2, (acquired self w).2).
Proof. unfold acquired. cbn. destruct (_client self) eqn:E; cbn; by rewrite ?E. Qed.

Lemma advance_get_client_bind {B} (f : option AsyncClient -> coro B) self w :
  advance (_get_client ≫= f) self w =
  advance (f (Some (acquired self w).1.1)) (acquired self w).1.2 (acquired self w).2.
Proof. unfold acquired. cbn. destruct (_client self) eqn:E; cbn; by rewrite ?E. Qed.

Lemma acquired_holds self w :
  _client (acquired self w).1.2 = Some (acquired self w).1.1.
Proof. unfold acquired. destruct (_client self) eqn:E; cbn; done. Qed.

Lemma acquired_consistent self w :
  consistent self w -> consistent (acquired self w).1.2 (acquired self w).2.
Proof.
  unfold consistent, acquired.
  destruct (_client self) eqn:E; cbn; [by rewrite E|].
  intros Hlive. rewrite Hlive. apply (right_id_L ∅ (∪)).
Qed.

Lemma acquired_live self w :
  consistent self w -> sid (acquired self w).1.1 ∈ live (acquired self w).2.
Proof.
  intros H%acquired_consistent. rewrite H, acquired_holds. set_solver.
Qed.

Lemma acquired_sent self w : sent (acquired self w).2 = sent w.
Proof. unfold acquired. destruct (_client self); cbn; done. Qed.

(** One round trip: acquire the session, hand it the request, and apply
    [finish] to the response. *)
Definition round_trip (net : network) (req : request)
    (finish : Response -> result json) (self : AirtableClient) (w : world)
  : result json * AirtableClient * world :=
  let w' := log_request (acquired self w).1.1 req (acquired self w).2 in
  (net (sent w') ≫= finish, (acquired self w).1.2, w').

Lemma run_round_trip net m url q b (rest : Response -> coro json) finish self w :
  (forall response s v, run net (rest response) s v = (finish response, s, v)) ->
  consistent self w ->
  run net (client ← _get_client; response ← http m client url q b; rest response) self w
  = round_trip net (Request m url q b) finish self w.
Proof.
  intros Hrest Hc. rewrite run_bind, run_get_client. cbn.
  rewrite decide_True by by apply acquired_live.
  unfold round_trip. destruct (net _) as [response|e]; cbn; [apply Hrest | done].
Qed.

(** ** The error table *)

Definition mapped_statuses : list Z := [401; 403; 404; 422; 429].

(** [needle] occurs in [hay]. *)
Definition contains (needle hay : string) : Prop :=
  exists before after, hay = before +:+ needle +:+ after.

Lemma app_assoc_string (a b c : string) : (a +:+ b) +:+ c = a +:+ (b +:+ c).
Proof.
  induction a as [|x a IH]; [done|].
  change (String x ((a +:+ b) +:+ c) = String x (a +:+ b +:+ c)). by rewrite IH.
Qed.

Lemma app_empty_r_string (a : string) : a +:+ "" = a.
Proof.
  induction a as [|x a IH]; [done|].
  change (String x (a +:+ "") = String x a). by rewrite IH.
Qed.

Lemma contains_suffix (a b : string) : contains b (a +:+ b).
Proof. exists a, "". by rewrite app_empty_r_string. Qed.

Lemma contains_middle (a b c : string) : contains b (a +:+ b +:+ c).
Proof. by exists a, c. Qed.

Lemma is_success_not_mapped response :
  is_success response = true -> status_code response ∉ mapped_statuses.
Proof.
  unfold is_success, mapped_statuses. intros [H1 H2]%andb_prop.
  apply Z.leb_le in H1, H2.
  rewrite !not_elem_of_cons. repeat split; try lia. apply not_elem_of_nil.
Qed.

Lemma handle_error_unmapped response :
  status_code response ∉ mapped_statuses ->
  _handle_error response =
  if is_success response then Ok tt
  else Exc (AirtableError ("Airtable API error: " +:+ pretty (status_code response)
                           +:+ " - " +:+ text response)).
Proof.
  unfold mapped_statuses. rewrite !not_elem_of_cons.
  intros (H1 & H2 & H3 & H4 & H5 & _). unfold _handle_error.
  apply Z.eqb_neq in H1, H2, H3, H4, H5. rewrite H1, H2, H3, H4, H5.
  by destruct (is_success response).
Qed.

Lemma handle_error_success response :
  is_success response = true -> _handle_error response = Ok tt.
Proof.
  intros H. rewrite handle_error_unmapped by by apply is_success_not_mapped.
  by rewrite H.
Qed.

(** No response outside 2xx passes the check. *)
Lemma handle_error_failure response :
  is_success response = false -> returned (_handle_error response) = false.
Proof.
  intros H. unfold _handle_error. rewrite H.
  repeat (case_match; [reflexivity|]).
  case_match; [|by case_match].
  destruct (json_of response) as [payload|]; [|done]. cbn.
  destruct (py_get payload _ _) as [error|]; [|done]. cbn.
  by destruct (py_get error _ _).
Qed.

(** The four statuses with a fixed message. *)
Lemma handle_error_fixed response :
  status_code response ∈ [401; 403; 404; 429] ->
  exists msg, _handle_error response = Exc (AirtableError msg) /\ msg <> "".
Proof.
  rewrite !elem_of_cons. unfold _handle_error.
  intros [->|[->|[->|[->|[]%elem_of_nil]]]]; cbn; eauto.
Qed.

(** 422 on a body that is an object whose ["error"] entry, when there is
    one, is an object too. *)
Lemma handle_error_422 response kvs :
  status_code response = 422 ->
  decoded response = Some (JDict kvs) ->
  match dict_lookup "error" kvs with
  | None => 
      _handle_error response = Exc (AirtableError "Invalid request: Unknown error")
  | Some (JDict error) =>
      _handle_error response =
      Exc (AirtableError
             ("Invalid request: " +:+
              py_str (default (JStr "Unknown error") (dict_lookup "message" error))))
  | Some _ => _handle_error response = Exc AttributeError
  end.
Proof.
  intros Hs Hd. unfold _handle_error, json_of. rewrite Hs, Hd. cbn.
  by destruct (dict_lookup "error" kvs) as [[]|]; cbn.
Qed.

(** ** The five operations as round trips *)

Definition checked (unwrap : Response -> result json) (response : Response)
  : result json :=
  _handle_error response;; unwrap response.

Lemma run_checked net (unwrap : Response -> result json) response self w :
  run net (lift (_handle_error response);; lift (unwrap response)) self w
  = (checked unwrap response, self, w).
Proof.
  rewrite run_lift_bind. unfold checked.
  destruct (_handle_error response); [apply run_lift | done].
Qed.

Definition unwrap_list (key : string) (response : Response) : result json :=
  payload ← json_of response; py_get payload key (JList []).

Definition unwrap_created (response : Response) : result json :=
  payload ← json_of response;
  records ← py_getitem payload "records";
  py_getitem_int records 0.

Lemma run_list_bases net self w :
  consistent self w ->
  run net list_bases self w =
  round_trip net (Request GET "/meta/bases" None None)
             (checked (unwrap_list "bases")) self w.
Proof. apply run_round_trip. intros. apply (run_checked net (unwrap_list "bases")). Qed.

Lemma run_list_tables net base_id self w :
  consistent self w ->
  run net (list_tables base_id) self w =
  round_trip net (Request GET ("/meta/bases/" +:+ base_id +:+ "/tables") None None)
             (checked (unwrap_list "tables")) self w.
Proof. apply run_round_trip. intros. apply (run_checked net (unwrap_list "tables")). Qed.

(** The query [list_records] builds. *)
Definition query (max_records : option Z) (filter_formula : option string)
  : gmap string param :=
  let params : gmap string param := ∅ in
  let params :=
    match max_records with
    | Some n => <["maxRecords" := PInt n]> params
    | None => params
    end in
  match filter_formula with
  | Some f => <["filterByFormula" := PStr f]> params
  | None => params
  end.

Lemma run_list_records net base_id table max_records filter_formula self w :
  consistent self w ->
  run net (list_records base_id table max_records filter_formula) self w =
  round_trip net
    (Request GET ("/" +:+ base_id +:+ "/" +:+ table)
             (Some (query max_records filter_formula)) None)
    (checked (unwrap_list "records")) self w.
Proof. apply run_round_trip. intros. apply (run_checked net (unwrap_list "records")). Qed.

Lemma run_create_record net base_id table fields self w :
  consistent self w ->
  run net (create_record base_id table fields) self w =
  round_trip net
    (Request POST ("/" +:+ base_id +:+ "/" +:+ table) None
             (Some (JDict [("records", JList [JDict [("fields", JDict fields)]])])))
    (checked unwrap_created) self w.
Proof. apply run_round_trip. intros. apply (run_checked net unwrap_created). Qed.

Lemma run_update_record net base_id table record_id fields self w :
  consistent self w ->
  run net (update_record base_id table record_id fields) self w =
  round_trip net
    (Request PATCH ("/" +:+ base_id +:+ "/" +:+ table +:+ "/" +:+ record_id) None
             (Some (JDict [("fields", JDict fields)])))
    (checked json_of) self w.
Proof. apply run_round_trip. intros. apply (run_checked net json_of). Qed.

Lemma run_invoke o :
  exists req unwrap, forall net self w,
    consistent self w ->
    run net (invoke o) self w = round_trip net req (checked unwrap) self w.
Proof.
  destruct o; do 2 eexists; intros net self w Hc; cbn [invoke].
  - by apply run_list_bases.
  - by apply run_list_tables.
  - by apply run_list_records.
  - by apply run_create_record.
  - by apply run_update_record.
Qed.

(** ** Inputs the statements below are tried on *)

Definition demo_client : AirtableClient := mkAirtableClient "patKEY" None.

Definition demo_environ : gmap string string := {["AIRTABLE_API_KEY" := "patKEY"]}.

Definition demo_record : json :=
  JDict [("id", JStr "rec1"); ("fields", JDict [("Name", JStr "Ada")])].

(** Answers every request with the same response. *)
Definition always (response : Response) : network := fun _ => Ok response.

Definition quoted (s : string) : string := String dquote s +:+ String dquote "".

(** ** Each operation, read as a request and a reading of the response *)

Definition request_of (o : operation) : request :=
  match o with
  | ListBases => Request GET "/meta/bases" None None
  | ListTables b => Request GET ("/meta/bases/" +:+ b +:+ "/tables") None None
  | ListRecords b t m f =>
      Request GET ("/" +:+ b +:+ "/" +:+ t) (Some (query m f)) None
  | CreateRecord b t fs =>
      Request POST ("/" +:+ b +:+ "/" +:+ t) None
        (Some (JDict [("records", JList [JDict [("fields", JDict fs)]])]))
  | UpdateRecord b t r fs =>
      Request PATCH ("/" +:+ b +:+ "/" +:+ t +:+ "/" +:+ r) None
        (Some (JDict [("fields", JDict fs)]))
  end.

Definition unwrap_of (o : operation) : Response -> result json :=
  match o with
  | ListBases => unwrap_list "bases"
  | ListTables _ => unwrap_list "tables"
  | ListRecords _ _ _ _ => unwrap_list "records"
  | CreateRecord _ _ _ => unwrap_created
  | UpdateRecord _ _ _ _ => json_of
  end.

Lemma run_operation net o self w :
  consistent self w ->
  run net (invoke o) self w
  = round_trip net (request_of o) (checked (unwrap_of o)) self w.
Proof.
  intros Hc. destruct o; cbn [invoke request_of unwrap_of].
  - by apply run_list_bases.
  - by apply run_list_tables.
  - by apply run_list_records.
  - by apply run_create_record.
  - by apply run_update_record.
Qed.

(** The outcome of an operation whose request is answered by [response]. *)
Lemma operation_outcome net o self w response :
  consistent self w ->
  net (sent (run net (invoke o) self w).2) = Ok response ->
  (run net (invoke o) self w).1.1 = checked (unwrap_of o) response.
Proof.
  intros Hc. rewrite run_operation by done. unfold round_trip. cbn.
  by intros ->.
Qed.

Lemma operation_log net o self w :
  consistent self w ->
  exists c,
    _client (run net (invoke o) self w).1.2 = Some c /\
    sent (run net (invoke o) self w).2 = sent w ++ [(sid c, request_of o)].
Proof.
  intros Hc. rewrite run_operation by done. unfold round_trip. cbn.
  exists (acquired self w).1.1. by rewrite acquired_holds, acquired_sent.
Qed.

(** ** What [httpx] accepts *)

(** [httpx] refuses some inputs on its own side, before anything reaches
    the transport; [run] and [advance] describe the client on the inputs
    it accepts, and the statements that depend on it say so with the
    predicates below.

    - Constructing the session encodes the header values as ASCII: a
      credential with a character above 127 raises [UnicodeEncodeError]
      and no session is stored.
    - A [json=] body is serialised with non-finite floats forbidden:
      [inf], [-inf] or [nan] anywhere in it raises [ValueError].
    - A path with an ASCII control character, or too long, raises
      [InvalidURL]; one that starts with two slashes is read as a host.
      So does a query that is too long once encoded. *)

Fixpoint all_chars (p : ascii -> bool) (s : string) : bool :=
  match s with
  | EmptyString => true
  | String c rest => p c && all_chars p rest
  end.

(** A credential that can be written into a header. *)
Definition ascii_text (s : string) : bool :=
  all_chars (fun c => (N_of_ascii c <? 128)%N) s.

Definition finite_float (repr : string) : bool :=
  negb (String.eqb repr "inf") && negb (String.eqb repr "-inf")
  && negb (String.eqb repr "nan").

(** A value with no [inf], [-inf] or [nan] in it. *)
Fixpoint finite (v : json) : bool :=
  match v with
  | JFloat r => finite_float r
  | JList xs =>
      (fix all (l : list json) : bool :=
         match l with
         | [] => true
         | x :: rest => finite x && all rest
         end) xs
  | JDict kvs =>
      (fix all (l : list (string * json)) : bool :=
         match l with
         | [] => true
         | (_, x) :: rest => finite x && all rest
         end) kvs
  | _ => true
  end.

Definition no_control (c : ascii) : bool :=
  (32 <=? N_of_ascii c)%N && negb (N_of_ascii c =? 127)%N.

(** A path [httpx] joins to the base URL as it is. *)
Definition plain_path (p : string) : bool :=
  all_chars no_control p
  && negb (String.prefix "//" p)
  && (Z.of_nat (String.length p) <=? 8000).

Definition small_param (v : param) : bool :=
  match v with
  | PInt n => Z.abs n <? 10 ^ 100
  | PStr s => Z.of_nat (String.length s) <=? 8000
  end.

Definition small_query (q : option (gmap string param)) : bool :=
  match q with
  | Some m => forallb (fun kv => small_param kv.2) (map_to_list m)
  | None => true
  end.

(** A request [httpx] hands to the transport. *)
Definition httpx_accepts (r : request) : bool :=
  plain_path (path r) && small_query (params r) && from_option finite true (body r).

(** ** The claims *)

(** C1 (defect in the code).  The claim asks that every 422 response is
    turned into an [AirtableError] whose message carries the nested
    error message, or a fallback label.  [_handle_error] reads the body
    with [response.json().get("error", {}).get("message", ...)] and so
    lets the interpreter's own exception escape when the body is not a
    JSON document ([JSONDecodeError]) or when its ["error"] entry is a
    string rather than an object ([AttributeError]): in both cases the
    operation raises, but not an [AirtableError]. *)
Theorem handle_error_422_unexpected_body :
  let plain := mkResponse 422 "Unprocessable Entity" None in
  let coded :=
    mkResponse 422 ("{" +:+ quoted "error" +:+ ": " +:+ quoted "INVALID_REQUEST" +:+ "}")
               (Some (JDict [("error", JStr "INVALID_REQUEST")])) in
  _handle_error plain = Exc JSONDecodeError /\
  _handle_error coded = Exc AttributeError /\
  (run (always plain) list_bases demo_client fresh_world).1.1 = Exc JSONDecodeError /\
  (run (always coded) list_bases demo_client fresh_world).1.1 = Exc AttributeError /\
  is_AirtableError JSONDecodeError = false /\
  is_AirtableError AttributeError = false.
Proof. repeat split; vm_compute; reflexivity. Qed.

(** C6.  An operation that receives a response outside 2xx returns no
    value; when the status is none of 401, 403, 404, 422, 429 it raises
    the [AirtableError] whose message is built from the status in decimal
    and the raw text of the body, and so contains both. *)
Theorem upstream_error_generic o net self w response :
  consistent self w ->
  net (sent (run net (invoke o) self w).2) = Ok response ->
  is_success response = false ->
  returned (run net (invoke o) self w).1.1 = false /\
  (status_code response ∉ mapped_statuses ->
   let msg := "Airtable API error: " +:+ pretty (status_code response)
              +:+ " - " +:+ text response in
   (run net (invoke o) self w).1.1 = Exc (AirtableError msg) /\
   contains (pretty (status_code response)) msg /\
   contains (text response) msg).
Proof.
  intros Hc. destruct (run_invoke o) as (req & unwrap & Hrun).
  rewrite Hrun by done. unfold round_trip. cbn.
  intros -> Hfail. cbn. unfold checked. split.
  - pose proof (handle_error_failure response Hfail).
    by destruct (_handle_error response).
  - intros Hun. rewrite handle_error_unmapped, Hfail by done. cbn.
    split; [done|]. split.
    + apply contains_middle.
    + rewrite <- !app_assoc_string. apply contains_suffix.
Qed.

Lemma upstream_error_generic_witness :
  let response := mkResponse 500 "Internal Server Error" None in
  (run (always response) (invoke ListBases) demo_client fresh_world).1.1
  = Exc (AirtableError "Airtable API error: 500 - Internal Server Error").
Proof.
  intros response.
  refine (proj1 (proj2 (upstream_error_generic ListBases (always response)
                          demo_client fresh_world response eq_refl eq_refl eq_refl) _)).
  vm_compute. intros H. repeat (apply elem_of_cons in H as [H|H]; [discriminate H|]).
  by apply elem_of_nil in H.
Defined.

(** C2.  For a credential, identifiers and fields that [httpx] accepts
    (an ASCII credential, a path without control characters, fields
    without non-finite floats), [create_record] hands the session one
    POST whose body is [{"records": [{"fields": fields}]}]; when the
    response is 2xx and its payload has an array under ["records"], the
    first element of that array is returned. *)
Theorem create_record_wraps_fields net base_id table fields self w :
  consistent self w ->
  ascii_text (api_key self) = true ->
  plain_path ("/" +:+ base_id +:+ "/" +:+ table) = true ->
  finite (JDict fields) = true ->
  let out := run net (create_record base_id table fields) self w in
  (exists c,
     _client out.1.2 = Some c /\
     sent out.2 =
     sent w ++
     [(sid c,
       Request POST ("/" +:+ base_id +:+ "/" +:+ table) None
         (Some (JDict [("records", JList [JDict [("fields", JDict fields)]])])))]) /\
  (forall response kvs record rest,
     net (sent out.2) = Ok response ->
     is_success response = true ->
     decoded response = Some (JDict kvs) ->
     dict_lookup "records" kvs = Some (JList (record :: rest)) ->
     out.1.1 = Ok record).
Proof.
  intros Hc _ _ _ out. unfold out. rewrite run_create_record by done.
  unfold round_trip. cbn. split.
  - exists (acquired self w).1.1. by rewrite acquired_holds, acquired_sent.
  - intros response kvs record rest -> Hok Hd Hr. cbn.
    unfold checked, unwrap_created, json_of, py_getitem.
    rewrite handle_error_success, Hd by done. cbn. by rewrite Hr.
Qed.

Lemma create_record_wraps_fields_witness :
  let net := always (mkResponse 200 "" (Some (JDict [("records", JList [demo_record])]))) in
  let out := run net (create_record "appA" "People" [("Name", JStr "Ada")])
                 demo_client fresh_world in
  (exists c,
     _client out.1.2 = Some c /\
     sent out.2 =
     [(sid c,
       Request POST "/appA/People" None
         (Some (JDict [("records",
                        JList [JDict [("fields", JDict [("Name", JStr "Ada")])]])])))]) /\
  out.1.1 = Ok demo_record.
Proof.
  intros net out.
  destruct (create_record_wraps_fields net "appA" "People" [("Name", JStr "Ada")]
              demo_client fresh_world eq_refl eq_refl eq_refl eq_refl)
    as [Hsent Hret].
  split; [exact Hsent|].
  exact (Hret _ _ _ _ eq_refl eq_refl eq_refl eq_refl).
Defined.

(** C5.  For a credential, identifiers and fields that [httpx] accepts
    (an ASCII credential, a path without control characters, fields
    without non-finite floats), [update_record] hands the session one
    PATCH on the path of the record whose body is [{"fields": fields}],
    nothing else; when the response is 2xx, its payload is returned as it
    is. *)
Theorem update_record_partial_patch net base_id table record_id fields self w :
  consistent self w ->
  ascii_text (api_key self) = true ->
  plain_path ("/" +:+ base_id +:+ "/" +:+ table +:+ "/" +:+ record_id) = true ->
  finite (JDict fields) = true ->
  let out := run net (update_record base_id table record_id fields) self w in
  (exists c,
     _client out.1.2 = Some c /\
     sent out.2 =
     sent w ++
     [(sid c,
       Request PATCH ("/" +:+ base_id +:+ "/" +:+ table +:+ "/" +:+ record_id) None
         (Some (JDict [("fields", JDict fields)])))]) /\
  (forall response payload,
     net (sent out.2) = Ok response ->
     is_success response = true ->
     decoded response = Some payload ->
     out.1.1 = Ok payload).
Proof.
  intros Hc _ _ _ out. unfold out. rewrite run_update_record by done.
  unfold round_trip. cbn. split.
  - exists (acquired self w).1.1. by rewrite acquired_holds, acquired_sent.
  - intros response payload -> Hok Hd. cbn.
    unfold checked, json_of.
    by rewrite handle_error_success, Hd by done.
Qed.

Lemma update_record_partial_patch_witness :
  let net := always (mkResponse 200 "" (Some demo_record)) in
  let out := run net (update_record "appA" "People" "rec1" [("Name", JStr "Ada")])
                 demo_client fresh_world in
  (exists c,
     _client out.1.2 = Some c /\
     sent out.2 =
     [(sid c,
       Request PATCH "/appA/People/rec1" None
         (Some (JDict [("fields", JDict [("Name", JStr "Ada")])])))]) /\
  out.1.1 = Ok demo_record.
Proof.
  intros net out.
  destruct (update_record_partial_patch net "appA" "People" "rec1" [("Name", JStr "Ada")]
              demo_client fresh_world eq_refl eq_refl eq_refl eq_refl)
    as [Hsent Hret].
  split; [exact Hsent|].
  exact (Hret _ _ eq_refl eq_refl eq_refl).
Defined.

(** *** Query parameters of [list_records] *)

(** The value the latest request carries for a query parameter. *)
Definition carried (key : string) (w : world) : option param :=
  '(_, r) ← last (sent w); q ← params r; q !! key.

Lemma query_lookup max_records filter_formula :
  query max_records filter_formula !! "maxRecords" = PInt <$> max_records /\
  query max_records filter_formula !! "filterByFormula" = PStr <$> filter_formula.
Proof. unfold query. by destruct max_records, filter_formula; simplify_map_eq. Qed.

Lemma carried_round_trip net req finish self w key :
  carried key (round_trip net req finish self w).2 = params req ≫= (.!! key).
Proof. unfold carried, round_trip. cbn. by rewrite last_snoc. Qed.

(** C3 as stated fails at the tool surface: the tool [list_records]
    called with neither optional argument sends [maxRecords], because its
    own default for [max_records] is 100. *)
Lemma list_records_tool_default_counterexample :
  ~ (carried "maxRecords"
       (Server.list_records (always (mkResponse 200 "" (Some (JDict []))))
          demo_environ "appA" "People" None None None fresh_world).2
     = None).
Proof. vm_compute. discriminate. Qed.

(** C3 (amended).  The method [list_records] of the client sends
    [maxRecords] exactly when [max_records] is given and
    [filterByFormula] exactly when [filter_formula] is given, each with
    the value given.  The tool [list_records] does the same for
    [filter_formula], and always sends [maxRecords]: the value given, or
    100 when the caller gives none. *)
Theorem list_records_query_parameters net environ base_id table
    max_records filter_formula self w :
  consistent self w ->
  let core := run net (list_records base_id table max_records filter_formula) self w in
  let tool := Server.list_records net environ base_id table
                max_records filter_formula (Some self) w in
  (exists c q,
     sent core.2 =
     sent w ++ [(sid c, Request GET ("/" +:+ base_id +:+ "/" +:+ table) (Some q) None)] /\
     q !! "maxRecords" = PInt <$> max_records /\
     q !! "filterByFormula" = PStr <$> filter_formula) /\
  carried "maxRecords" core.2 = PInt <$> max_records /\
  carried "filterByFormula" core.2 = PStr <$> filter_formula /\
  (exists c q,
     sent tool.2 =
     sent w ++ [(sid c, Request GET ("/" +:+ base_id +:+ "/" +:+ table) (Some q) None)] /\
     q !! "maxRecords" = Some (PInt (default 100 max_records)) /\
     q !! "filterByFormula" = PStr <$> filter_formula) /\
  carried "maxRecords" tool.2 = Some (PInt (default 100 max_records)) /\
  carried "filterByFormula" tool.2 = PStr <$> filter_formula.
Proof.
  intros Hc core tool.
  assert (Htool : tool.2 =
            (run net (list_records base_id table (Some (default 100 max_records))
                        filter_formula) self w).2).
  { unfold tool, Server.list_records, Server.await_on_client, Server.get_client.
    cbv beta iota.
    by destruct (run net (list_records _ _ (Some _) _) self w) as [[? ?] ?]. }
  rewrite Htool. unfold core. rewrite !run_list_records by done.
  rewrite !carried_round_trip.
  destruct (query_lookup max_records filter_formula) as [Hm Hf].
  destruct (query_lookup (Some (default 100 max_records)) filter_formula) as [Hm' Hf'].
  unfold round_trip. cbn. rewrite acquired_sent.
  repeat split; try done; eauto.
Qed.

Lemma list_records_query_parameters_witness :
  let net := always (mkResponse 200 "" (Some (JDict [("records", JList [])]))) in
  carried "maxRecords"
    (run net (list_records "appA" "People" None None) demo_client fresh_world).2 = None /\
  carried "filterByFormula"
    (run net (list_records "appA" "People" (Some 5) (Some "{Done}"))
         demo_client fresh_world).2 = Some (PStr "{Done}") /\
  carried "maxRecords"
    (Server.list_records net demo_environ "appA" "People" None None
       (Some demo_client) fresh_world).2 = Some (PInt 100).
Proof.
  intros net. split; [|split].
  - exact (proj1 (proj2 (list_records_query_parameters net demo_environ "appA" "People"
                           None None demo_client fresh_world eq_refl))).
  - exact (proj1 (proj2 (proj2 (list_records_query_parameters net demo_environ
                           "appA" "People" (Some 5) (Some "{Done}")
                           demo_client fresh_world eq_refl)))).
  - exact (proj1 (proj2 (proj2 (proj2 (proj2
             (list_records_query_parameters net demo_environ "appA" "People"
                None None demo_client fresh_world eq_refl)))))).
Defined.

(** *** Construction *)

(** C4.  With no credential argument and the variable unset,
    construction raises the configuration error; a tool called in that
    situation raises it too, leaves the module without a client and the
    world as it was: no session is constructed and no request is sent.
    With a non-empty credential construction succeeds, and the client it
    returns holds no session. *)
Theorem construct_without_credential environ :
  environ !! "AIRTABLE_API_KEY" = None ->
  __init__ environ None = Exc (AirtableError CONFIG_MESSAGE) /\
  (forall net method w,
     Server.await_on_client net environ method None w
     = (Exc (AirtableError CONFIG_MESSAGE), None, w)) /\
  (forall environ' k, k <> "" ->
     __init__ environ' (Some k) = Ok {| api_key := k; _client := None |}).
Proof.
  intros Henv. split; [|split].
  - unfold __init__. cbn. by rewrite Henv.
  - intros net method w. unfold Server.await_on_client, Server.get_client, __init__.
    cbn. by rewrite Henv.
  - intros environ' k Hk. unfold __init__, truthy.
    apply String.eqb_neq in Hk. rewrite Hk. cbn. by rewrite Hk.
Qed.

Lemma construct_without_credential_witness :
  __init__ ∅ None = Exc (AirtableError CONFIG_MESSAGE) /\
  Server.list_bases (always (mkResponse 200 "" None)) ∅ None fresh_world
  = (Exc (AirtableError CONFIG_MESSAGE), None, fresh_world) /\
  __init__ ∅ (Some "patKEY") = Ok demo_client.
Proof.
  assert (Hunset : (∅ : gmap string string) !! "AIRTABLE_API_KEY" = None)
    by reflexivity.
  destruct (construct_without_credential ∅ Hunset) as (H1 & H2 & H3).
  split; [exact H1 | split; [apply H2 | by apply (H3 ∅)]].
Defined.

(** C9.  The empty string given as credential is treated as no argument:
    the variable of the environment is used instead, construction raises
    the configuration error when that is unset or empty too, and no
    client is ever constructed with an empty credential. *)
Theorem empty_credential_is_absent environ :
  __init__ environ (Some "") = __init__ environ None /\
  (forall k, environ !! "AIRTABLE_API_KEY" = Some k -> k <> "" ->
     __init__ environ (Some "") = Ok {| api_key := k; _client := None |}) /\
  (truthy (environ !! "AIRTABLE_API_KEY") = false ->
     __init__ environ (Some "") = Exc (AirtableError CONFIG_MESSAGE)) /\
  (forall key c, __init__ environ key = Ok c -> api_key c <> "").
Proof.
  split; [reflexivity|]. split; [|split].
  - intros k Hk Hne. unfold __init__. cbn. rewrite Hk. cbn.
    apply String.eqb_neq in Hne. by rewrite Hne.
  - unfold __init__. cbn.
    destruct (environ !! "AIRTABLE_API_KEY") as [k|]; [|done].
    unfold truthy. by intros ->.
  - intros key c. unfold __init__.
    destruct (if truthy key then key else _) as [k|]; [|done].
    destruct (truthy (Some k)) eqn:Hk; [|done].
    intros [= <-]. cbn. unfold truthy in Hk.
    apply negb_true_iff, String.eqb_neq in Hk. done.
Qed.

Lemma empty_credential_is_absent_witness :
  __init__ demo_environ (Some "") = Ok demo_client /\
  __init__ {["AIRTABLE_API_KEY" := ""]} (Some "") = Exc (AirtableError CONFIG_MESSAGE) /\
  api_key demo_client <> "".
Proof.
  split; [|split].
  - by apply (proj1 (proj2 (empty_credential_is_absent demo_environ)) "patKEY").
  - by apply (proj1 (proj2 (proj2 (empty_credential_is_absent {["AIRTABLE_API_KEY" := ""]})))).
  - by apply (proj2 (proj2 (proj2 (empty_credential_is_absent demo_environ))) (Some "patKEY")).
Defined.

(** *** Payloads without the expected key *)

(** C10.  On a 2xx response whose payload is an object without the
    collection key, [list_bases], [list_tables] and [list_records] return
    the empty list; [create_record] raises [KeyError], which is not an
    [AirtableError]. *)
Theorem missing_collection_key net self w response kvs :
  consistent self w ->
  is_success response = true ->
  decoded response = Some (JDict kvs) ->
  (dict_lookup "bases" kvs = None ->
   net (sent (run net list_bases self w).2) = Ok response ->
   (run net list_bases self w).1.1 = Ok (JList [])) /\
  (forall base_id,
     dict_lookup "tables" kvs = None ->
     net (sent (run net (list_tables base_id) self w).2) = Ok response ->
     (run net (list_tables base_id) self w).1.1 = Ok (JList [])) /\
  (forall base_id table max_records filter_formula,
     dict_lookup "records" kvs = None ->
     net (sent (run net (list_records base_id table max_records filter_formula)
                    self w).2) = Ok response ->
     (run net (list_records base_id table max_records filter_formula) self w).1.1
     = Ok (JList [])) /\
  (forall base_id table fields,
     dict_lookup "records" kvs = None ->
     net (sent (run net (create_record base_id table fields) self w).2) = Ok response ->
     (run net (create_record base_id table fields) self w).1.1
     = Exc (KeyError (JStr "records")) /\
     is_AirtableError (KeyError (JStr "records")) = false).
Proof.
  intros Hc Hok Hd.
  assert (Hlist : forall key, dict_lookup key kvs = None ->
                    checked (unwrap_list key) response = Ok (JList [])).
  { intros key Hk. unfold checked, unwrap_list, json_of.
    rewrite handle_error_success, Hd by done. cbn. by rewrite Hk. }
  split; [|split; [|split]].
  - intros Hk. rewrite run_list_bases by done. unfold round_trip. cbn.
    intros ->. by apply Hlist.
  - intros base_id Hk. rewrite run_list_tables by done. unfold round_trip. cbn.
    intros ->. by apply Hlist.
  - intros base_id table max_records filter_formula Hk.
    rewrite run_list_records by done. unfold round_trip. cbn.
    intros ->. by apply Hlist.
  - intros base_id table fields Hk.
    rewrite run_create_record by done. unfold round_trip. cbn.
    intros ->. split; [|done]. cbn.
    unfold checked, unwrap_created, json_of.
    rewrite handle_error_success, Hd by done. cbn. by rewrite Hk.
Qed.

Lemma missing_collection_key_witness :
  let net := always (mkResponse 200 "{}" (Some (JDict []))) in
  (run net list_bases demo_client fresh_world).1.1 = Ok (JList []) /\
  (run net (list_tables "appA") demo_client fresh_world).1.1 = Ok (JList []) /\
  (run net (list_records "appA" "People" None None) demo_client fresh_world).1.1
  = Ok (JList []) /\
  (run net (create_record "appA" "People" []) demo_client fresh_world).1.1
  = Exc (KeyError (JStr "records")).
Proof.
  intros net.
  destruct (missing_collection_key net demo_client fresh_world
              (mkResponse 200 "{}" (Some (JDict []))) [] eq_refl eq_refl eq_refl)
    as (Hb & Ht & Hr & Hc).
  split; [exact (Hb eq_refl eq_refl)|].
  split; [exact (Ht "appA" eq_refl eq_refl)|].
  split; [exact (Hr "appA" "People" None None eq_refl eq_refl)|].
  exact (proj1 (Hc "appA" "People" [] eq_refl eq_refl)).
Defined.

(** *** The session of a client *)

Lemma run_close net self w :
  run net close self w =
  match _client self with
  | Some c => (Ok tt, set_session self None, close_session c w)
  | None => (Ok tt, self, w)
  end.
Proof. cbn. destruct (_client self) eqn:E; cbn; by rewrite ?E. Qed.

Lemma close_consistent net self w :
  consistent self w ->
  consistent (run net close self w).1.2 (run net close self w).2.
Proof.
  unfold consistent. rewrite run_close.
  destruct (_client self) eqn:E; cbn; [|by rewrite E].
  intros ->. apply difference_diag_L.
Qed.

Lemma invoke_consistent net o self w :
  consistent self w ->
  consistent (run net (invoke o) self w).1.2 (run net (invoke o) self w).2.
Proof.
  intros Hc. destruct (run_invoke o) as (req & unwrap & Hrun).
  rewrite Hrun by done. by apply acquired_consistent.
Qed.

Lemma perform_consistent net c st :
  consistent st.1 st.2 -> consistent (perform net c st).1 (perform net c st).2.
Proof.
  destruct st as [self w]. intros Hc. cbn [fst snd] in Hc.
  destruct c as [o|]; unfold perform; cbn [fst snd].
  - pose proof (invoke_consistent net o self w Hc) as H.
    by destruct (run net (invoke o) self w) as [[? ?] ?].
  - pose proof (close_consistent net self w Hc) as H.
    by destruct (run net close self w) as [[? ?] ?].
Qed.

Lemma perform_all_consistent net cs st :
  consistent st.1 st.2 ->
  consistent (perform_all net cs st).1 (perform_all net cs st).2.
Proof.
  revert st. induction cs as [|c cs IH]; intros st Hc; [done|].
  cbn. apply IH. by apply perform_consistent.
Qed.

Lemma consistent_at_most_one self w : consistent self w -> (size (live w) <= 1)%nat.
Proof.
  unfold consistent. intros ->. destruct (_client self).
  - by rewrite size_singleton.
  - by rewrite size_empty; lia.
Qed.

(** [await client.close()] as a task of the loop; it returns [None]. *)
Definition close_task : coro json := close;; Return JNone.

(** A client that holds an open session after one operation, and on it
    two calls of [close] and two operations issued together. *)
Definition overlapping_closes : loop :=
  let out := run (always (mkResponse 200 "" (Some (JDict [("bases", JList [])]))))
                 list_bases demo_client fresh_world in
  {| tasks := [Ready close_task; Ready close_task; Ready list_bases; Ready list_bases];
     shared := out.1.2;
     outside := out.2 |}.

(** C7 as stated fails when a [close] overlaps other calls.  [close]
    suspends in [aclose] before it resets the field.  Here the first
    [close] is still suspended when the second has reset the field and an
    operation has constructed a new session; the first then resets the
    field again, the new session stays open with nothing holding it, and
    the next operation constructs another: two sessions of the client
    are open. *)
Lemma session_invariant_overlap_counterexample :
  ~ (size (live (outside
                   (exec [Start 0%nat; Start 1%nat; Closed 1%nat; Start 2%nat;
                          Closed 0%nat; Start 3%nat]
                         overlapping_closes))) <= 1)%nat.
Proof.
  assert (H : size (live (outside
                   (exec [Start 0%nat; Start 1%nat; Closed 1%nat; Start 2%nat;
                          Closed 0%nat; Start 3%nat]
                         overlapping_closes))) = 2%nat) by reflexivity.
  rewrite H. lia.
Qed.

(** C7 (amended).  On a client constructed with an ASCII credential,
    whatever operations and calls of [close] a caller awaits one after
    the other, none begun before the one before it has finished, the open
    sessions of the client are the one its field holds, so there is at
    most one.  [close] returns and leaves the field [None] and no session
    open; a second [close] returns too and changes nothing.  An operation
    after that, with arguments whose request [httpx] accepts, constructs
    a new session, stores it in the field and hands its request to it. *)
Theorem session_state_machine net key cs :
  ascii_text key = true ->
  let st := perform_all net cs (mkAirtableClient key None, fresh_world) in
  let closed := run net close st.1 st.2 in
  consistent st.1 st.2 /\
  (size (live st.2) <= 1)%nat /\
  closed.1.1 = Ok tt /\
  _client closed.1.2 = None /\
  live closed.2 = ∅ /\
  run net close closed.1.2 closed.2 = (Ok tt, closed.1.2, closed.2) /\
  forall o,
    httpx_accepts (request_of o) = true ->
    let again := run net (invoke o) closed.1.2 closed.2 in
    exists c,
      _client again.1.2 = Some c /\
      sid c = created closed.2 /\
      created again.2 = S (created closed.2) /\
      live again.2 = {[sid c]} /\
      sent again.2 = sent closed.2 ++ [(sid c, request_of o)].
Proof.
  intros _ st closed.
  assert (Hst : consistent st.1 st.2).
  { exact (perform_all_consistent net cs (mkAirtableClient key None, fresh_world)
             eq_refl). }
  assert (Hcl : consistent closed.1.2 closed.2).
  { exact (close_consistent net st.1 st.2 Hst). }
  assert (Hnone : _client closed.1.2 = None).
  { unfold closed. rewrite run_close. by destruct (_client st.1) eqn:E. }
  split; [done|]. split; [exact (consistent_at_most_one _ _ Hst)|].
  split; [unfold closed; rewrite run_close; by destruct (_client st.1)|].
  split; [done|].
  split; [by rewrite Hcl, Hnone|].
  split; [by rewrite run_close, Hnone|].
  clearbody closed. destruct closed as [[r self] w]. cbn [fst snd] in *.
  intros o _. rewrite run_operation by done.
  unfold round_trip, acquired. rewrite Hnone. cbn.
  eexists. repeat split.
  rewrite Hcl, Hnone. apply (right_id_L ∅ (∪)).
Qed.

Lemma session_state_machine_witness :
  let net := always (mkResponse 200 "" (Some (JDict [("bases", JList [])]))) in
  let st := perform_all net [Op ListBases; Op (ListTables "appA"); Close; Op ListBases]
              (demo_client, fresh_world) in
  let closed := run net close st.1 st.2 in
  (size (live st.2) <= 1)%nat /\
  _client closed.1.2 = None /\
  live closed.2 = ∅ /\
  run net close closed.1.2 closed.2 = (Ok tt, closed.1.2, closed.2) /\
  exists c,
    _client (run net (invoke ListBases) closed.1.2 closed.2).1.2 = Some c /\
    sid c = 2%nat /\
    live (run net (invoke ListBases) closed.1.2 closed.2).2 = {[sid c]} /\
    sent (run net (invoke ListBases) closed.1.2 closed.2).2
    = sent closed.2 ++ [(sid c, Request GET "/meta/bases" None None)].
Proof.
  intros net st closed.
  destruct (session_state_machine net "patKEY"
              [Op ListBases; Op (ListTables "appA"); Close; Op ListBases] eq_refl)
    as (_ & Hone & _ & Hnone & Hlive & Hagain & Hop).
  split; [exact Hone|]. split; [exact Hnone|]. split; [exact Hlive|].
  split; [exact Hagain|].
  destruct (Hop ListBases eq_refl) as (c & H1 & H2 & _ & H4 & H5).
  exists c. split; [exact H1|]. split; [exact H2|]. split; [exact H4|].
  exact H5.
Defined.

(** *** Operations issued together *)

(** Once its request has been answered an operation touches neither the
    client nor the world, and does not suspend again. *)
Definition tail_quiet (k : Response -> coro json) : Prop :=
  forall response self w,
    exists res, advance (k response) self w = (Finished res, self, w).

Lemma advance_round_trip m url q b (rest : Response -> coro json) self w :
  consistent self w ->
  advance (client ← _get_client; response ← http m client url q b; rest response) self w
  = (AwaitingReply (acquired self w).1.1 (fun response => Return response ≫= rest),
     (acquired self w).1.2,
     log_request (acquired self w).1.1 (Request m url q b) (acquired self w).2).
Proof.
  intros Hc. rewrite advance_get_client_bind. cbn.
  by rewrite decide_True by by apply acquired_live.
Qed.

Lemma checked_quiet (unwrap : Response -> result json) :
  tail_quiet (fun response =>
                Return response ≫= fun response =>
                  lift (_handle_error response);; lift (unwrap response)).
Proof.
  intros response self w. cbn. rewrite advance_lift_bind.
  destruct (_handle_error response); [rewrite advance_lift|]; eauto.
Qed.

Lemma advance_invoke o self w :
  consistent self w ->
  exists req k,
    advance (invoke o) self w
    = (AwaitingReply (acquired self w).1.1 k, (acquired self w).1.2,
       log_request (acquired self w).1.1 req (acquired self w).2)
    /\ tail_quiet k.
Proof.
  intros Hc. destruct o; cbn [invoke].
  - eexists _, _. split; [by apply advance_round_trip|].
    apply (checked_quiet (unwrap_list "bases")).
  - eexists _, _. split; [by apply advance_round_trip|].
    apply (checked_quiet (unwrap_list "tables")).
  - eexists _, _. split; [by apply advance_round_trip|].
    apply (checked_quiet (unwrap_list "records")).
  - eexists _, _. split; [by apply advance_round_trip|].
    apply (checked_quiet unwrap_created).
  - eexists _, _. split; [by apply advance_round_trip|].
    apply (checked_quiet json_of).
Qed.

(** What the loop may hold for a task that started as one of the five
    operations. *)
Definition task_ok (t : task json) : Prop :=
  match t with
  | Ready p => exists o, p = invoke o
  | AwaitingReply _ k => tail_quiet k
  | AwaitingClose _ _ => False
  | Finished _ => True
  end.

Record loop_inv (st : loop) : Prop := mkLoopInv {
  inv_consistent : consistent (shared st) (outside st);
  inv_tasks : Forall task_ok (tasks st);
  inv_created :
    created (outside st) = if existsb started (tasks st) then 1%nat else 0%nat;
  inv_session :
    bool_decide (is_Some (_client (shared st))) = existsb started (tasks st)
}.

Lemma existsb_insert_started (ts : list (task json)) i t :
  (i < length ts)%nat -> started t = true ->
  existsb started (<[i := t]> ts) = true.
Proof.
  intros Hi Ht. apply existsb_exists. exists t. split; [|done].
  apply list_elem_of_In, list_elem_of_lookup. exists i.
  by apply list_lookup_insert_eq.
Qed.

Lemma settle_started st i t self w :
  (i < length (tasks st))%nat -> started t = true ->
  existsb started (tasks (settle i st (t, self, w))) = true.
Proof. intros. by apply existsb_insert_started. Qed.

Lemma lookup_started (ts : list (task json)) i t :
  ts !! i = Some t -> started t = true -> existsb started ts = true.
Proof.
  intros Hi Ht. apply existsb_exists. exists t. split; [|done].
  apply list_elem_of_In, list_elem_of_lookup. by exists i.
Qed.

Lemma step_inv st ev : loop_inv st -> loop_inv (step st ev).
Proof.
  intros [Hc Hts Hn Hs]. destruct ev as [i|i reply|i]; cbn [step].
  - destruct (tasks st !! i) as [[p|c k|c k|r]|] eqn:Hi; try done.
    pose proof (Forall_lookup_1 _ _ _ _ Hts Hi) as [o ->].
    destruct (advance_invoke o _ _ Hc) as (req & k & -> & Hk).
    assert (Hlt : (i < length (tasks st))%nat) by by eapply lookup_lt_Some.
    split; cbn [settle tasks shared outside fst snd].
    + unfold consistent. cbn. by apply acquired_consistent.
    + by apply Forall_insert.
    + rewrite existsb_insert_started by done. cbn.
      unfold acquired. revert Hs Hn.
      destruct (_client (shared st)) eqn:E; cbn; intros <-; cbn; [done|].
      by intros ->.
    + rewrite existsb_insert_started by done.
      rewrite acquired_holds. by apply bool_decide_eq_true.
  - destruct (tasks st !! i) as [[p|c k|c k|r]|] eqn:Hi; try done.
    pose proof (Forall_lookup_1 _ _ _ _ Hts Hi) as Hk. cbn in Hk.
    assert (Hlt : (i < length (tasks st))%nat) by by eapply lookup_lt_Some.
    assert (Hst : existsb started (tasks st) = true) by by eapply lookup_started.
    destruct reply as [response|e].
    + destruct (Hk response (shared st) (outside st)) as [res ->].
      split; cbn [settle tasks shared outside fst snd]; try done.
      * by apply Forall_insert.
      * by rewrite existsb_insert_started, Hn, Hst.
      * by rewrite existsb_insert_started, Hs, Hst.
    + split; cbn [settle tasks shared outside fst snd]; try done.
      * by apply Forall_insert.
      * by rewrite existsb_insert_started, Hn, Hst.
      * by rewrite existsb_insert_started, Hs, Hst.
  - destruct (tasks st !! i) as [[p|c k|c k|r]|] eqn:Hi; try done.
    by pose proof (Forall_lookup_1 _ _ _ _ Hts Hi).
Qed.

Lemma exec_inv schedule st : loop_inv st -> loop_inv (exec schedule st).
Proof.
  revert st. induction schedule as [|ev schedule IH]; intros st H; [done|].
  cbn. apply IH. by apply step_inv.
Qed.

Lemma spawn_inv key os : loop_inv (spawn (mkAirtableClient key None) fresh_world os).
Proof.
  assert (Hnone : existsb started ((fun o => Ready (invoke o)) <$> os) = false).
  { by induction os. }
  split; cbn [spawn tasks shared outside]; rewrite ?Hnone; try done.
  apply Forall_fmap, Forall_forall. intros o _. by exists o.
Qed.

Lemma step_length st ev : length (tasks (step st ev)) = length (tasks st).
Proof.
  destruct ev as [i|i reply|i]; cbn [step];
    destruct (tasks st !! i) as [[p|c k|c k|r]|]; try done;
    try destruct reply; cbn [settle tasks]; by rewrite length_insert.
Qed.

Lemma exec_length schedule st :
  length (tasks (exec schedule st)) = length (tasks st).
Proof.
  revert st. induction schedule as [|ev schedule IH]; intros st; [done|].
  change (length (tasks (exec schedule (step st ev))) = length (tasks st)).
  by rewrite IH, step_length.
Qed.

Lemma all_finished_started (ts : list (task json)) :
  ts <> [] -> forallb finished ts = true -> existsb started ts = true.
Proof. destruct ts as [|[] ts]; cbn; try done. Qed.

(** C8.  Two operations issued together on a client with an ASCII
    credential that holds no session yet: at every point of every
    schedule, one session has been constructed if one of the two has
    started and none otherwise; when both have finished, exactly one has
    been constructed. *)
Theorem concurrent_first_use_single_session key o1 o2 schedule :
  ascii_text key = true ->
  let st := exec schedule (spawn (mkAirtableClient key None) fresh_world [o1; o2]) in
  created (outside st) = (if existsb started (tasks st) then 1%nat else 0%nat) /\
  (created (outside st) <= 1)%nat /\
  (forallb finished (tasks st) = true -> created (outside st) = 1%nat).
Proof.
  intros _ st.
  assert (Hinv : loop_inv st) by apply exec_inv, spawn_inv.
  assert (Hlen : length (tasks st) = 2%nat) by apply exec_length.
  destruct Hinv as [_ _ Hn _]. split; [done|]. split.
  - rewrite Hn. destruct (existsb _ _); lia.
  - intros Hfin. rewrite Hn, all_finished_started; [done| |done].
    intros E. by rewrite E in Hlen.
Qed.

Lemma concurrent_first_use_single_session_witness :
  let reply := Ok (mkResponse 200 "" (Some (JDict [("records", JList [demo_record])]))) in
  let schedule := [Start 1%nat; Start 0%nat; Deliver 0%nat reply; Deliver 1%nat reply] in
  let st := exec schedule
              (spawn demo_client fresh_world
                 [ListRecords "appA" "People" None None;
                  CreateRecord "appA" "People" [("Name", JStr "Ada")]]) in
  forallb finished (tasks st) = true /\ created (outside st) = 1%nat.
Proof.
  intros reply schedule st. split; [reflexivity|].
  exact (proj2 (proj2 (concurrent_first_use_single_session "patKEY"
                         (ListRecords "appA" "People" None None)
                         (CreateRecord "appA" "People" [("Name", JStr "Ada")])
                         schedule eq_refl)) eq_refl).
Defined.

(** * Further properties of the client and of the tools *)

(** ** One request for each operation *)

(** X1.  In a state where the session the client holds is the open one,
    with an ASCII credential and arguments whose request [httpx]
    accepts, an operation hands exactly one request to the session the
    client holds afterwards, whatever the answer is: a value, an error
    status or a failure of the transport.  Nothing is sent twice, and no
    second request follows the first. *)
Theorem operation_sends_one_request o net self w :
  consistent self w ->
  ascii_text (api_key self) = true ->
  httpx_accepts (request_of o) = true ->
  let out := run net (invoke o) self w in
  exists c,
    _client out.1.2 = Some c /\
    sid c ∈ live out.2 /\
    sent out.2 = sent w ++ [(sid c, request_of o)] /\
    out.1.1 = net (sent out.2) ≫= checked (unwrap_of o).
Proof.
  intros Hc _ _ out. unfold out. rewrite run_operation by done.
  unfold round_trip. cbn. exists (acquired self w).1.1.
  rewrite acquired_holds, acquired_sent.
  split; [done|]. split; [by apply acquired_live|]. done.
Qed.

Lemma operation_sends_one_request_witness :
  let net : network := fun _ => Exc TransportError in
  let out := run net (invoke (ListTables "appA")) demo_client fresh_world in
  exists c,
    _client out.1.2 = Some c /\
    sid c ∈ live out.2 /\
    sent out.2 = [(sid c, Request GET "/meta/bases/appA/tables" None None)] /\
    out.1.1 = Exc TransportError.
Proof.
  intros net out.
  exact (operation_sends_one_request (ListTables "appA") net demo_client
           fresh_world eq_refl eq_refl eq_refl).
Defined.

(** X2.  Two operations awaited one after the other on a client with
    an ASCII credential, with arguments whose requests [httpx] accepts,
    use the same session: the second constructs none, whatever the first
    returned or raised, and both requests are handed to the session the
    client holds. *)
Theorem session_reused net o1 o2 self w :
  consistent self w ->
  ascii_text (api_key self) = true ->
  httpx_accepts (request_of o1) = true ->
  httpx_accepts (request_of o2) = true ->
  let first := run net (invoke o1) self w in
  let second := run net (invoke o2) first.1.2 first.2 in
  created second.2 = created first.2 /\
  _client second.1.2 = _client first.1.2 /\
  exists c,
    _client second.1.2 = Some c /\
    sent second.2 = sent w ++ [(sid c, request_of o1); (sid c, request_of o2)].
Proof.
  intros Hc _ _ _ first second.
  assert (Hc1 : consistent first.1.2 first.2) by by apply invoke_consistent.
  destruct (operation_log net o1 self w Hc) as (c & Hh & Hs).
  unfold second. rewrite run_operation by done.
  unfold round_trip, acquired. fold first in Hh, Hs. rewrite Hh. cbn.
  rewrite Hs, <- app_assoc. eauto.
Qed.

Lemma session_reused_witness :
  let net := always (mkResponse 404 "" None) in
  let first := run net (invoke ListBases) demo_client fresh_world in
  let second := run net (invoke (ListTables "appA")) first.1.2 first.2 in
  created second.2 = 1%nat /\
  exists c,
    _client second.1.2 = Some c /\
    sent second.2 =
    [(sid c, Request GET "/meta/bases" None None);
     (sid c, Request GET "/meta/bases/appA/tables" None None)].
Proof.
  intros net first second.
  destruct (session_reused net ListBases (ListTables "appA") demo_client
              fresh_world eq_refl eq_refl eq_refl eq_refl) as (Hn & _ & Hs).
  split; [exact Hn | exact Hs].
Defined.

(** ** The session a client holds *)

(** The session of a client whose credential is [key]: bound to the
    origin of the API, with the bearer header of the credential, the JSON
    content type and a timeout of 30 seconds. *)
Definition configured (key : string) (self : AirtableClient) : Prop :=
  api_key self = key /\
  match _client self with
  | Some c =>
      base_url c = "https://api.airtable.com/v0" /\
      headers c = [("Authorization", "Bearer " +:+ key);
                   ("Content-Type", "application/json")] /\
      timeout c = 30
  | None => True
  end.

Lemma acquired_configured key self w :
  configured key self -> configured key (acquired self w).1.2.
Proof.
  unfold configured, acquired. intros [Hk Hs].
  destruct (_client self) eqn:E; cbn; [by rewrite E|].
  by rewrite Hk.
Qed.

Lemma perform_configured net key c st :
  consistent st.1 st.2 -> configured key st.1 -> configured key (perform net c st).1.
Proof.
  destruct st as [self w]. cbn [fst snd]. intros Hc Hk.
  destruct c as [o|]; unfold perform; cbn [fst snd].
  - rewrite run_operation by done. unfold round_trip. cbn.
    by apply acquired_configured.
  - rewrite run_close. destruct Hk as [Hk Hs].
    by destruct (_client self) eqn:E; cbn; unfold configured; cbn; rewrite ?E.
Qed.

Lemma perform_all_configured net key cs st :
  consistent st.1 st.2 -> configured key st.1 ->
  configured key (perform_all net cs st).1.
Proof.
  revert st. induction cs as [|c cs IH]; intros st Hc Hk; [done|].
  cbn. apply IH; [by apply perform_consistent | by apply perform_configured].
Qed.

(** X3.  Whatever operations and calls of [close] are awaited one after
    the other on a client constructed with a credential, the credential
    of the client never changes, and the session it holds, if any, is
    bound to [https://api.airtable.com/v0] with the header
    [Authorization: Bearer <credential>], the JSON content type and a
    timeout of 30. *)
Theorem session_configuration net key cs :
  let st := perform_all net cs (mkAirtableClient key None, fresh_world) in
  api_key st.1 = key /\
  match _client st.1 with
  | Some c =>
      base_url c = "https://api.airtable.com/v0" /\
      headers c = [("Authorization", "Bearer " +:+ key);
                   ("Content-Type", "application/json")] /\
      timeout c = 30
  | None => True
  end.
Proof.
  intros st.
  exact (perform_all_configured net key cs (mkAirtableClient key None, fresh_world)
           eq_refl (conj eq_refl I)).
Qed.

(** *** How many sessions a client constructs *)

Definition is_close (c : call) : bool :=
  match c with Close => true | Op _ => false end.

Definition closes (cs : list call) : nat := length (List.filter is_close cs).

(** Sessions constructed so far, plus the one the next operation would
    construct. *)
Definition budget (st : AirtableClient * world) : nat :=
  (created st.2 + match _client st.1 with Some _ => 0 | None => 1 end)%nat.

Lemma perform_budget net c st :
  consistent st.1 st.2 ->
  budget (perform net c st) = (budget st +
    match c, _client st.1 with Close, Some _ => 1 | _, _ => 0 end)%nat.
Proof.
  destruct st as [self w]. cbn [fst snd]. intros Hc.
  destruct c as [o|]; unfold perform, budget; cbn [fst snd].
  - rewrite run_operation by done. unfold round_trip, acquired.
    destruct (_client self) eqn:E; cbn; rewrite ?E; lia.
  - rewrite run_close. destruct (_client self) eqn:E; cbn; rewrite ?E; lia.
Qed.

Lemma perform_all_budget net cs st :
  consistent st.1 st.2 ->
  (budget (perform_all net cs st) <= budget st + closes cs)%nat.
Proof.
  revert st. induction cs as [|c cs IH]; intros st Hc.
  - unfold closes. cbn. lia.
  - change (perform_all net (c :: cs) st) with (perform_all net cs (perform net c st)).
    pose proof (IH (perform net c st) (perform_consistent net c st Hc)) as H.
    rewrite perform_budget in H by done.
    unfold closes in *. destruct c as [o|]; cbn [List.filter is_close length] in *;
      [lia|]. destruct (_client st.1); lia.
Qed.

(** X4.  A client constructs a session only on first use and on the
    first use after a [close]: after any sequence of awaited calls, the
    number of sessions constructed is at most one more than the number of
    calls of [close] in the sequence.  In particular any number of
    operations with no [close] among them constructs at most one. *)
Theorem sessions_constructed_bound net key cs :
  let st := perform_all net cs (mkAirtableClient key None, fresh_world) in
  (created st.2 <= 1 + closes cs)%nat.
Proof.
  intros st.
  pose proof (perform_all_budget net cs (mkAirtableClient key None, fresh_world)
                eq_refl) as H.
  fold st in H. unfold budget in H. cbn in H. lia.
Qed.

(** ** What an operation makes of the response *)

(** X5.  The four statuses with a fixed message: an operation that is
    answered 401, 403, 404 or 429 raises the [AirtableError] with the
    message of that status, whatever the body of the response is (it is
    not read, so it need not be JSON). *)
Theorem fixed_status_messages o net self w response :
  consistent self w ->
  net (sent (run net (invoke o) self w).2) = Ok response ->
  (status_code response = 401 ->
   (run net (invoke o) self w).1.1
   = Exc (AirtableError "Invalid API key. Check your AIRTABLE_API_KEY.")) /\
  (status_code response = 403 ->
   (run net (invoke o) self w).1.1
   = Exc (AirtableError
            "Permission denied. Your API key lacks access to this resource.")) /\
  (status_code response = 404 ->
   (run net (invoke o) self w).1.1
   = Exc (AirtableError
            "Not found. Check that the base/table/record ID is correct.")) /\
  (status_code response = 429 ->
   (run net (invoke o) self w).1.1
   = Exc (AirtableError
            "Rate limited. Airtable allows 5 requests/second. Wait and retry.")).
Proof.
  intros Hc Hnet. rewrite (operation_outcome net o self w response Hc Hnet).
  unfold checked, _handle_error.
  split; [|split; [|split]]; by intros ->.
Qed.

Lemma fixed_status_messages_witness :
  (run (always (mkResponse 429 "slow down" None))
       (invoke (UpdateRecord "appA" "People" "rec1" []))
       demo_client fresh_world).1.1
  = Exc (AirtableError
           "Rate limited. Airtable allows 5 requests/second. Wait and retry.").
Proof.
  exact (proj2 (proj2 (proj2
           (fixed_status_messages (UpdateRecord "appA" "People" "rec1" [])
              (always (mkResponse 429 "slow down" None))
              demo_client fresh_world (mkResponse 429 "slow down" None)
              eq_refl eq_refl))) eq_refl).
Defined.

(** X6.  A 422 response whose body is a JSON object: when its ["error"]
    entry is an object with a string under ["message"], the operation
    raises the [AirtableError] ["Invalid request: "] followed by that
    string, unchanged; when the body has no ["error"] entry, or the entry
    is an object without ["message"], the message ends in
    ["Unknown error"]; a [null] message is not replaced by the fallback
    but formatted, as ["None"]. *)
Theorem validation_message o net self w response kvs :
  consistent self w ->
  net (sent (run net (invoke o) self w).2) = Ok response ->
  status_code response = 422 ->
  decoded response = Some (JDict kvs) ->
  (forall error detail,
     dict_lookup "error" kvs = Some (JDict error) ->
     dict_lookup "message" error = Some (JStr detail) ->
     (run net (invoke o) self w).1.1
     = Exc (AirtableError ("Invalid request: " +:+ detail))) /\
  (dict_lookup "error" kvs = None ->
   (run net (invoke o) self w).1.1
   = Exc (AirtableError "Invalid request: Unknown error")) /\
  (forall error,
     dict_lookup "error" kvs = Some (JDict error) ->
     dict_lookup "message" error = None ->
     (run net (invoke o) self w).1.1
     = Exc (AirtableError "Invalid request: Unknown error")) /\
  (forall error,
     dict_lookup "error" kvs = Some (JDict error) ->
     dict_lookup "message" error = Some JNone ->
     (run net (invoke o) self w).1.1
     = Exc (AirtableError "Invalid request: None")).
Proof.
  intros Hc Hnet Hs Hd. rewrite (operation_outcome net o self w response Hc Hnet).
  unfold checked. pose proof (handle_error_422 response kvs Hs Hd) as H.
  split; [|split; [|split]].
  - intros error detail He Hm. rewrite He, Hm in H. by rewrite H.
  - intros He. rewrite He in H. by rewrite H.
  - intros error He Hm. rewrite He, Hm in H. by rewrite H.
  - intros error He Hm. rewrite He, Hm in H. by rewrite H.
Qed.

Lemma validation_message_witness :
  let body := JDict [("error", JDict [("type", JStr "INVALID_VALUE_FOR_COLUMN");
                                      ("message", JStr "Field Age cannot accept x")])] in
  (run (always (mkResponse 422 "" (Some body)))
       (invoke (CreateRecord "appA" "People" [("Age", JStr "x")]))
       demo_client fresh_world).1.1
  = Exc (AirtableError "Invalid request: Field Age cannot accept x").
Proof.
  intros body.
  exact (proj1 (validation_message
                  (CreateRecord "appA" "People" [("Age", JStr "x")])
                  (always (mkResponse 422 "" (Some body)))
                  demo_client fresh_world (mkResponse 422 "" (Some body)) _
                  eq_refl eq_refl eq_refl eq_refl)
           _ _ eq_refl eq_refl).
Defined.

(** X7.  On a 2xx response whose payload is an object, [list_bases],
    [list_tables] and [list_records] return what stands under ["bases"],
    ["tables"] and ["records"], as it is; the other entries of the
    payload (such as the ["offset"] of a further page) are not looked
    at. *)
Theorem list_operations_unwrap net self w response kvs :
  consistent self w ->
  is_success response = true ->
  decoded response = Some (JDict kvs) ->
  (forall v,
     dict_lookup "bases" kvs = Some v ->
     net (sent (run net list_bases self w).2) = Ok response ->
     (run net list_bases self w).1.1 = Ok v) /\
  (forall base_id v,
     dict_lookup "tables" kvs = Some v ->
     net (sent (run net (list_tables base_id) self w).2) = Ok response ->
     (run net (list_tables base_id) self w).1.1 = Ok v) /\
  (forall base_id table max_records filter_formula v,
     dict_lookup "records" kvs = Some v ->
     net (sent (run net (list_records base_id table max_records filter_formula)
                    self w).2) = Ok response ->
     (run net (list_records base_id table max_records filter_formula) self w).1.1
     = Ok v).
Proof.
  intros Hc Hok Hd.
  assert (Hlist : forall key v, dict_lookup key kvs = Some v ->
                    checked (unwrap_list key) response = Ok v).
  { intros key v Hk. unfold checked, unwrap_list, json_of.
    rewrite handle_error_success, Hd by done. cbn. by rewrite Hk. }
  split; [|split].
  - intros v Hk Hnet.
    exact (eq_trans (operation_outcome net ListBases self w response Hc Hnet)
             (Hlist _ _ Hk)).
  - intros base_id v Hk Hnet.
    exact (eq_trans (operation_outcome net (ListTables base_id) self w response
                       Hc Hnet) (Hlist _ _ Hk)).
  - intros base_id table max_records filter_formula v Hk Hnet.
    exact (eq_trans (operation_outcome net
                       (ListRecords base_id table max_records filter_formula)
                       self w response Hc Hnet) (Hlist _ _ Hk)).
Qed.

Lemma list_operations_unwrap_witness :
  let page := [("records", JList [demo_record]); ("offset", JStr "itr1/rec1")] in
  (run (always (mkResponse 200 "" (Some (JDict page))))
       (list_records "appA" "People" (Some 1) None) demo_client fresh_world).1.1
  = Ok (JList [demo_record]).
Proof.
  intros page.
  exact (proj2 (proj2 (list_operations_unwrap
                         (always (mkResponse 200 "" (Some (JDict page))))
                         demo_client fresh_world
                         (mkResponse 200 "" (Some (JDict page))) page
                         eq_refl eq_refl eq_refl))
           "appA" "People" (Some 1) None _ eq_refl eq_refl).
Defined.

(** X8.  A 2xx response whose body is not a JSON document makes every
    operation raise the decoder's [JSONDecodeError]; the error is not
    turned into an [AirtableError]. *)
Theorem success_with_undecodable_body o net self w response :
  consistent self w ->
  net (sent (run net (invoke o) self w).2) = Ok response ->
  is_success response = true ->
  decoded response = None ->
  (run net (invoke o) self w).1.1 = Exc JSONDecodeError /\
  is_AirtableError JSONDecodeError = false.
Proof.
  intros Hc Hnet Hok Hd. rewrite (operation_outcome net o self w response Hc Hnet).
  unfold checked. rewrite handle_error_success by done. split; [|done].
  destruct o; cbn [unwrap_of]; unfold unwrap_list, unwrap_created, json_of;
    by rewrite Hd.
Qed.

Lemma success_with_undecodable_body_witness :
  (run (always (mkResponse 204 "" None)) (invoke ListBases)
       demo_client fresh_world).1.1 = Exc JSONDecodeError.
Proof.
  exact (proj1 (success_with_undecodable_body ListBases
                  (always (mkResponse 204 "" None)) demo_client fresh_world
                  (mkResponse 204 "" None) eq_refl eq_refl eq_refl eq_refl)).
Defined.

Definition is_dict (v : json) : bool :=
  match v with JDict _ => true | _ => false end.

Definition is_list_operation (o : operation) : bool :=
  match o with
  | ListBases | ListTables _ | ListRecords _ _ _ _ => true
  | CreateRecord _ _ _ | UpdateRecord _ _ _ _ => false
  end.

(** X9.  A 2xx response whose payload is JSON but not an object (an
    array, a string, a number, [null]): the three list operations raise
    [AttributeError] and [create_record] raises [TypeError], neither of
    them an [AirtableError]; [update_record] returns the payload as it
    is. *)
Theorem success_with_non_object_payload net self w response v :
  consistent self w ->
  is_success response = true ->
  decoded response = Some v ->
  is_dict v = false ->
  (forall o,
     is_list_operation o = true ->
     net (sent (run net (invoke o) self w).2) = Ok response ->
     (run net (invoke o) self w).1.1 = Exc AttributeError) /\
  (forall base_id table fields,
     net (sent (run net (create_record base_id table fields) self w).2) = Ok response ->
     (run net (create_record base_id table fields) self w).1.1 = Exc TypeError) /\
  (forall base_id table record_id fields,
     net (sent (run net (update_record base_id table record_id fields) self w).2)
     = Ok response ->
     (run net (update_record base_id table record_id fields) self w).1.1 = Ok v).
Proof.
  intros Hc Hok Hd Hv.
  assert (Hlist : forall key, checked (unwrap_list key) response = Exc AttributeError).
  { intros key. unfold checked, unwrap_list, json_of.
    rewrite handle_error_success, Hd by done. by destruct v. }
  split; [|split].
  - intros o Ho Hnet. rewrite (operation_outcome net o self w response Hc Hnet).
    by destruct o; cbn [unwrap_of].
  - intros base_id table fields Hnet.
    refine (eq_trans (operation_outcome net (CreateRecord base_id table fields)
                        self w response Hc Hnet) _).
    unfold checked. rewrite handle_error_success by done.
    cbn [unwrap_of]. unfold unwrap_created, json_of. rewrite Hd. by destruct v.
  - intros base_id table record_id fields Hnet.
    refine (eq_trans (operation_outcome net
                        (UpdateRecord base_id table record_id fields)
                        self w response Hc Hnet) _).
    unfold checked. rewrite handle_error_success by done.
    cbn [unwrap_of]. unfold json_of. by rewrite Hd.
Qed.

Lemma success_with_non_object_payload_witness :
  let net := always (mkResponse 200 "[]" (Some (JList []))) in
  (run net (invoke (ListTables "appA")) demo_client fresh_world).1.1
  = Exc AttributeError /\
  (run net (create_record "appA" "People" []) demo_client fresh_world).1.1
  = Exc TypeError /\
  (run net (update_record "appA" "People" "rec1" []) demo_client fresh_world).1.1
  = Ok (JList []).
Proof.
  intros net.
  destruct (success_with_non_object_payload net demo_client fresh_world
              (mkResponse 200 "[]" (Some (JList []))) (JList [])
              eq_refl eq_refl eq_refl eq_refl) as (Hl & Hc & Hu).
  split; [exact (Hl (ListTables "appA") eq_refl eq_refl)|].
  split; [exact (Hc "appA" "People" [] eq_refl)|].
  exact (Hu "appA" "People" "rec1" [] eq_refl).
Defined.

(** X10.  [create_record] on a 2xx response whose ["records"] array is
    empty raises [IndexError], which is not an [AirtableError]. *)
Theorem create_record_empty_records net base_id table fields self w response kvs :
  consistent self w ->
  net (sent (run net (create_record base_id table fields) self w).2) = Ok response ->
  is_success response = true ->
  decoded response = Some (JDict kvs) ->
  dict_lookup "records" kvs = Some (JList []) ->
  (run net (create_record base_id table fields) self w).1.1 = Exc IndexError /\
  is_AirtableError IndexError = false.
Proof.
  intros Hc Hnet Hok Hd Hr. split; [|done].
  refine (eq_trans (operation_outcome net (CreateRecord base_id table fields)
                      self w response Hc Hnet) _).
  unfold checked. rewrite handle_error_success by done.
  cbn [unwrap_of]. unfold unwrap_created, json_of. rewrite Hd. cbn.
  by rewrite Hr.
Qed.

Lemma create_record_empty_records_witness :
  let response := mkResponse 200 "" (Some (JDict [("records", JList [])])) in
  (run (always response) (create_record "appA" "People" []) demo_client
       fresh_world).1.1 = Exc IndexError.
Proof.
  intros response.
  exact (proj1 (create_record_empty_records (always response) "appA" "People" []
                  demo_client fresh_world response _
                  eq_refl eq_refl eq_refl eq_refl eq_refl)).
Defined.

(** ** The tools and the client of the module *)

(** A call of the tool named like the operation; for [list_records] the
    optional arguments are those of the tool, [None] when left out. *)
Definition call_tool (net : network) (environ : gmap string string) (o : operation)
  : option AirtableClient -> world -> result json * option AirtableClient * world :=
  match o with
  | ListBases => Server.list_bases net environ
  | ListTables b => Server.list_tables net environ b
  | ListRecords b t m f => Server.list_records net environ b t m f
  | CreateRecord b t fs => Server.create_record net environ b t fs
  | UpdateRecord b t r fs => Server.update_record net environ b t r fs
  end.

(** The operation of the client a tool call amounts to. *)
Definition as_called (o : operation) : operation :=
  match o with
  | ListRecords b t m f => ListRecords b t (Some (default 100 m)) f
  | _ => o
  end.

Lemma call_tool_held net environ o c w :
  consistent c w ->
  call_tool net environ o (Some c) w =
  let out := round_trip net (request_of (as_called o))
               (checked (unwrap_of (as_called o))) c w in
  (out.1.1, Some out.1.2, out.2).
Proof.
  intros Hc.
  assert (H : call_tool net environ o (Some c) w =
              let '(r, c', w') := run net (invoke (as_called o)) c w in
              (r, Some c', w')) by by destruct o.
  rewrite H, run_operation by done. done.
Qed.

Lemma init_from_environ environ k :
  environ !! "AIRTABLE_API_KEY" = Some k -> k <> "" ->
  __init__ environ None = Ok (mkAirtableClient k None).
Proof.
  intros Hk Hne. unfold __init__. cbn. rewrite Hk. cbn.
  apply String.eqb_neq in Hne. by rewrite Hne.
Qed.

Lemma call_tool_first net environ o k w :
  environ !! "AIRTABLE_API_KEY" = Some k -> k <> "" ->
  call_tool net environ o None w
  = call_tool net environ o (Some (mkAirtableClient k None)) w.
Proof.
  intros Hk Hne.
  destruct o; cbn [call_tool];
    unfold Server.list_bases, Server.list_tables, Server.list_records,
      Server.create_record, Server.update_record, Server.await_on_client,
      Server.get_client;
    by rewrite (init_from_environ environ k Hk Hne).
Qed.

Lemma acquired_api_key self w : api_key (acquired self w).1.2 = api_key self.
Proof. unfold acquired. by destruct (_client self). Qed.

(** X11.  The client of the module is constructed by the first tool call
    and kept: the next tool call does not read the environment again (it
    may have lost the variable), runs on the same client with the same
    credential, constructs no further session, and returns or raises
    what the method of the client does. *)
Theorem tool_client_reused net environ environ' o1 o2 k w :
  environ !! "AIRTABLE_API_KEY" = Some k ->
  k <> "" ->
  live w = ∅ ->
  let first := call_tool net environ o1 None w in
  let second := call_tool net environ' o2 first.1.2 first.2 in
  exists c s,
    first.1.2 = Some c /\
    api_key c = k /\
    _client c = Some s /\
    second.1.1 = (run net (invoke (as_called o2)) c first.2).1.1 /\
    (exists c', second.1.2 = Some c' /\ api_key c' = k /\ _client c' = Some s) /\
    created second.2 = S (created w) /\
    sent second.2 =
    sent w ++ [(sid s, request_of (as_called o1)); (sid s, request_of (as_called o2))].
Proof.
  intros Hk Hne Hw first second.
  assert (Hc0 : consistent (mkAirtableClient k None) w) by done.
  unfold second, first. clear first second.
  rewrite (call_tool_first net environ o1 k w Hk Hne), call_tool_held by done.
  cbn zeta. cbn [fst snd].
  set (out := round_trip net _ _ _ w).
  assert (Hc1 : consistent out.1.2 out.2) by by apply acquired_consistent.
  rewrite call_tool_held by done.
  exists out.1.2, (new_session (mkAirtableClient k None) w).
  rewrite run_operation by done.
  unfold out, round_trip, acquired. cbn.
  split; [done|]. split; [done|]. split; [done|].
  split; [done|]. split; [eauto|]. split; [done|].
  by rewrite <- app_assoc.
Qed.

Lemma tool_client_reused_witness :
  let net := always (mkResponse 200 "" (Some (JDict []))) in
  let first := call_tool net demo_environ ListBases None fresh_world in
  let second := call_tool net ∅ (ListRecords "appA" "People" None None)
                  first.1.2 first.2 in
  exists c s,
    first.1.2 = Some c /\
    api_key c = "patKEY" /\
    _client c = Some s /\
    second.1.1 = (run net (invoke (ListRecords "appA" "People" (Some 100) None))
                      c first.2).1.1 /\
    (exists c', second.1.2 = Some c' /\ api_key c' = "patKEY" /\ _client c' = Some s) /\
    created second.2 = 1%nat /\
    sent second.2 =
    [(sid s, Request GET "/meta/bases" None None);
     (sid s, Request GET "/appA/People" (Some (query (Some 100) None)) None)].
Proof.
  intros net first second.
  assert (Hset : demo_environ !! "AIRTABLE_API_KEY" = Some "patKEY") by reflexivity.
  assert (Hne : "patKEY" <> "") by discriminate.
  exact (tool_client_reused net demo_environ ∅ ListBases
           (ListRecords "appA" "People" None None) "patKEY" fresh_world
           Hset Hne eq_refl).
Defined.

(** X12.  A tool call that fails for want of a credential leaves the
    module without a client, so the failure is not remembered: once the
    variable is set, the next tool call constructs the client with it
    and sends its request. *)
Theorem tool_construction_retried net environ environ' o1 o2 k w :
  environ !! "AIRTABLE_API_KEY" = None ->
  environ' !! "AIRTABLE_API_KEY" = Some k ->
  k <> "" ->
  live w = ∅ ->
  let first := call_tool net environ o1 None w in
  let second := call_tool net environ' o2 first.1.2 first.2 in
  first = (Exc (AirtableError CONFIG_MESSAGE), None, w) /\
  exists c s,
    second.1.2 = Some c /\
    api_key c = k /\
    _client c = Some s /\
    sent second.2 = sent w ++ [(sid s, request_of (as_called o2))].
Proof.
  intros Hun Hk Hne Hw first second.
  assert (Hfirst : first = (Exc (AirtableError CONFIG_MESSAGE), None, w)).
  { unfold first.
    destruct o1; cbn [call_tool];
      unfold Server.list_bases, Server.list_tables, Server.list_records,
        Server.create_record, Server.update_record, Server.await_on_client,
        Server.get_client, __init__; cbn; by rewrite Hun. }
  split; [done|]. unfold second. rewrite Hfirst. cbn [fst snd].
  assert (Hc0 : consistent (mkAirtableClient k None) w) by done.
  rewrite (call_tool_first net environ' o2 k w Hk Hne), call_tool_held by done.
  unfold round_trip, acquired. cbn.
  eexists _, (new_session (mkAirtableClient k None) w).
  split; [done|]. split; [done|]. split; done.
Qed.

Lemma tool_construction_retried_witness :
  let net := always (mkResponse 200 "" (Some (JDict []))) in
  let first := call_tool net ∅ ListBases None fresh_world in
  let second := call_tool net demo_environ (ListTables "appA") first.1.2 first.2 in
  first = (Exc (AirtableError CONFIG_MESSAGE), None, fresh_world) /\
  exists c s,
    second.1.2 = Some c /\
    api_key c = "patKEY" /\
    _client c = Some s /\
    sent second.2 = [(sid s, Request GET "/meta/bases/appA/tables" None None)].
Proof.
  intros net first second.
  assert (Hun : (∅ : gmap string string) !! "AIRTABLE_API_KEY" = None) by reflexivity.
  assert (Hset : demo_environ !! "AIRTABLE_API_KEY" = Some "patKEY") by reflexivity.
  assert (Hne : "patKEY" <> "") by discriminate.
  exact (tool_construction_retried net ∅ demo_environ ListBases (ListTables "appA")
           "patKEY" fresh_world Hun Hset Hne eq_refl).
Defined.

(** ** Any number of operations issued together *)

Definition count_started (ts : list (task json)) : nat :=
  length (List.filter started ts).

Lemma count_started_insert (ts : list (task json)) i t t' :
  ts !! i = Some t ->
  (count_started (<[i := t']> ts) + (if started t then 1 else 0)
   = count_started ts + (if started t' then 1 else 0))%nat.
Proof.
  unfold count_started. revert i.
  induction ts as [|x ts IH]; intros [|i] Hi; try done.
  - cbn in Hi. injection Hi as Hx. subst x. cbn.
    destruct (started t), (started t'); cbn; lia.
  - cbn in Hi. specialize (IH i Hi). cbn.
    destruct (started x); cbn; [exact (f_equal S IH) | exact IH].
Qed.

(** Every request so far was handed to the first session constructed,
    and each task that has started has handed over one. *)
Record loop_log (st : loop) : Prop := mkLoopLog {
  log_sessions : Forall (fun e => e.1 = 0%nat) (sent (outside st));
  log_count : length (sent (outside st)) = count_started (tasks st);
  log_held : match _client (shared st) with Some c => sid c = 0%nat | None => True end
}.

Lemma step_log st ev : loop_inv st -> loop_log st -> loop_log (step st ev).
Proof.
  intros [Hc Hts Hn Hs] [Hl Hcount Hheld].
  destruct ev as [i|i reply|i]; cbn [step].
  - destruct (tasks st !! i) as [[p|c k|c k|r]|] eqn:Hi; try done.
    pose proof (Forall_lookup_1 _ _ _ _ Hts Hi) as [o ->].
    destruct (advance_invoke o _ _ Hc) as (req & k & -> & Hk).
    pose proof (count_started_insert (tasks st) i _
                  (AwaitingReply (acquired (shared st) (outside st)).1.1 k) Hi) as Hins.
    cbn in Hins.
    assert (Hsid : sid (acquired (shared st) (outside st)).1.1 = 0%nat).
    { unfold acquired. revert Hs Hn Hheld.
      destruct (_client (shared st)) eqn:E; cbn; [done|].
      by intros <- ->. }
    split; cbn [settle tasks shared outside fst snd].
    + cbn. rewrite acquired_sent. apply Forall_app. split; [done|].
      by apply Forall_singleton.
    + cbn. rewrite acquired_sent, length_app. cbn. lia.
    + by rewrite acquired_holds.
  - destruct (tasks st !! i) as [[p|c k|c k|r]|] eqn:Hi; try done.
    pose proof (Forall_lookup_1 _ _ _ _ Hts Hi) as Hk. cbn in Hk.
    destruct reply as [response|e].
    + destruct (Hk response (shared st) (outside st)) as [res ->].
      pose proof (count_started_insert (tasks st) i _ (Finished res) Hi) as Hins.
      cbn in Hins.
      split; cbn [settle tasks shared outside fst snd]; try done. lia.
    + pose proof (count_started_insert (tasks st) i _ (Finished (Exc e)) Hi) as Hins.
      cbn in Hins.
      split; cbn [settle tasks shared outside fst snd]; try done. lia.
  - destruct (tasks st !! i) as [[p|c k|c k|r]|] eqn:Hi; try done.
    by pose proof (Forall_lookup_1 _ _ _ _ Hts Hi).
Qed.

Lemma exec_log schedule st :
  loop_inv st -> loop_log st -> loop_inv (exec schedule st) /\ loop_log (exec schedule st).
Proof.
  revert st. induction schedule as [|ev schedule IH]; intros st Hi Hl; [done|].
  change (exec (ev :: schedule) st) with (exec schedule (step st ev)).
  apply IH; [by apply step_inv | by apply step_log].
Qed.

Lemma spawn_log key os : loop_log (spawn (mkAirtableClient key None) fresh_world os).
Proof.
  split; cbn [spawn tasks shared outside]; try done.
  unfold count_started. by induction os.
Qed.

(** X13.  However many operations, with arguments whose requests
    [httpx] accepts, are issued together on a client with an ASCII
    credential that holds no session, and however the loop schedules
    them, at most one session is constructed, every request is handed to
    it, and the number of requests handed over is the number of
    operations that have started: each hands over one, none two. *)
Theorem concurrent_operations_share_session key os schedule :
  ascii_text key = true ->
  forallb (fun o => httpx_accepts (request_of o)) os = true ->
  let st := exec schedule (spawn (mkAirtableClient key None) fresh_world os) in
  (created (outside st) <= 1)%nat /\
  Forall (fun e => e.1 = 0%nat) (sent (outside st)) /\
  length (sent (outside st)) = count_started (tasks st).
Proof.
  intros _ _ st.
  destruct (exec_log schedule _ (spawn_inv key os) (spawn_log key os))
    as [[_ _ Hn _] [Hl Hcount _]].
  fold st in Hn, Hl, Hcount. split; [|done].
  rewrite Hn. destruct (existsb _ _); lia.
Qed.

Lemma concurrent_operations_share_session_witness :
  let reply := Ok (mkResponse 200 "" (Some (JDict []))) in
  let st := exec [Start 2%nat; Start 0%nat; Deliver 2%nat reply; Start 1%nat]
              (spawn demo_client fresh_world
                 [ListBases; ListTables "appA";
                  ListRecords "appA" "People" None None]) in
  (created (outside st) <= 1)%nat /\
  Forall (fun e => e.1 = 0%nat) (sent (outside st)) /\
  length (sent (outside st)) = 3%nat.
Proof.
  intros reply st.
  exact (concurrent_operations_share_session "patKEY"
           [ListBases; ListTables "appA"; ListRecords "appA" "People" None None]
           [Start 2%nat; Start 0%nat; Deliver 2%nat reply; Start 1%nat]
           eq_refl eq_refl).
Defined.

(** *** What an operation run among others returns *)

Lemma advance_operation o self w :
  consistent self w ->
  exists k,
    advance (invoke o) self w
    = (AwaitingReply (acquired self w).1.1 k, (acquired self w).1.2,
       log_request (acquired self w).1.1 (request_of o) (acquired self w).2)
    /\ forall response s v,
         advance (k response) s v = (Finished (checked (unwrap_of o) response), s, v).
Proof.
  intros Hc.
  assert (Htail : forall (unwrap : Response -> result json) response s v,
            advance (Return response ≫= fun response =>
                       lift (_handle_error response);; lift (unwrap response)) s v
            = (Finished (checked unwrap response), s, v)).
  { intros unwrap response s v. cbn. rewrite advance_lift_bind. unfold checked.
    destruct (_handle_error response); [by rewrite advance_lift | done]. }
  destruct o; cbn [invoke request_of unwrap_of]; eexists;
    (split; [by apply advance_round_trip|]); intros response s v.
  - apply (Htail (unwrap_list "bases")).
  - apply (Htail (unwrap_list "tables")).
  - apply (Htail (unwrap_list "records")).
  - apply (Htail unwrap_created).
  - apply (Htail json_of).
Qed.

(** What the loop may hold at position [i] for the task that started as
    [o], after the events [history]. *)
Definition task_at (history : list event) (i : nat) (o : operation) (t : task json)
  : Prop :=
  match t with
  | Ready p => p = invoke o
  | AwaitingReply _ k =>
      forall response s v,
        advance (k response) s v = (Finished (checked (unwrap_of o) response), s, v)
  | AwaitingClose _ _ => False
  | Finished res =>
      exists reply, Deliver i reply ∈ history /\ res = reply ≫= checked (unwrap_of o)
  end.

Definition tasks_of (history : list event) (os : list operation)
    (ts : list (task json)) : Prop :=
  length ts = length os /\
  forall i o t, os !! i = Some o -> ts !! i = Some t -> task_at history i o t.

Lemma task_at_later history ev i o t :
  task_at history i o t -> task_at (history ++ [ev]) i o t.
Proof.
  destruct t as [p|c k|c k|res]; cbn; try done.
  intros (reply & Hin & ->). exists reply. split; [|done].
  apply elem_of_app. by left.
Qed.

Lemma tasks_of_later history ev os ts :
  tasks_of history os ts -> tasks_of (history ++ [ev]) os ts.
Proof.
  intros [Hlen H]. split; [done|]. intros i o t Ho Ht.
  by apply task_at_later, H.
Qed.

Lemma tasks_of_insert history ev os ts i o t :
  tasks_of history os ts ->
  os !! i = Some o ->
  task_at (history ++ [ev]) i o t ->
  tasks_of (history ++ [ev]) os (<[i := t]> ts).
Proof.
  intros [Hlen H] Ho Ht. split; [by rewrite length_insert|].
  intros j o' t' Ho' Ht'. destruct (decide (i = j)) as [<-|Hne].
  - rewrite list_lookup_insert_eq in Ht'
      by (rewrite Hlen; by eapply lookup_lt_Some).
    by simplify_eq.
  - rewrite list_lookup_insert_ne in Ht' by done.
    by apply task_at_later, H.
Qed.

Lemma tasks_of_operation history os ts i t :
  tasks_of history os ts -> ts !! i = Some t ->
  exists o, os !! i = Some o /\ task_at history i o t.
Proof.
  intros [Hlen H] Ht.
  destruct (lookup_lt_is_Some_2 os i) as [o Ho].
  { rewrite <- Hlen. by eapply lookup_lt_Some. }
  exists o. split; [done|]. by apply H.
Qed.

Lemma step_tasks history os st ev :
  consistent (shared st) (outside st) ->
  tasks_of history os (tasks st) ->
  consistent (shared (step st ev)) (outside (step st ev)) /\
  tasks_of (history ++ [ev]) os (tasks (step st ev)).
Proof.
  intros Hc Hts.
  pose proof (tasks_of_later history ev os (tasks st) Hts) as Hsame.
  destruct ev as [i|i reply|i]; cbn [step].
  - destruct (tasks st !! i) as [[p|c k|c k|r]|] eqn:Hi; try done.
    destruct (tasks_of_operation _ _ _ _ _ Hts Hi) as (o & Ho & ->).
    destruct (advance_operation o _ _ Hc) as (k & -> & Hk).
    split; cbn [settle tasks shared outside fst snd].
    + unfold consistent. cbn. by apply acquired_consistent.
    + by eapply tasks_of_insert.
  - destruct (tasks st !! i) as [[p|c k|c k|r]|] eqn:Hi; try done.
    destruct (tasks_of_operation _ _ _ _ _ Hts Hi) as (o & Ho & Hk). cbn in Hk.
    destruct reply as [response|e].
    + rewrite Hk. split; cbn [settle tasks shared outside fst snd]; [done|].
      eapply tasks_of_insert; [done..|]. exists (Ok response).
      split; [|done]. apply elem_of_app. right. by apply list_elem_of_singleton.
    + split; cbn [settle tasks shared outside fst snd]; [done|].
      eapply tasks_of_insert; [done..|]. exists (Exc e).
      split; [|done]. apply elem_of_app. right. by apply list_elem_of_singleton.
  - destruct (tasks st !! i) as [[p|c k|c k|r]|] eqn:Hi; try done.
    by destruct (tasks_of_operation _ _ _ _ _ Hts Hi) as (o & Ho & Hk).
Qed.

Lemma exec_tasks os schedule history st :
  consistent (shared st) (outside st) ->
  tasks_of history os (tasks st) ->
  tasks_of (history ++ schedule) os (tasks (exec schedule st)).
Proof.
  revert history st.
  induction schedule as [|ev schedule IH]; intros history st Hc Hts.
  - by rewrite app_nil_r.
  - change (exec (ev :: schedule) st) with (exec schedule (step st ev)).
    destruct (step_tasks history os st ev Hc Hts) as [Hc' Hts'].
    rewrite (cons_middle ev history schedule), app_assoc. by apply IH.
Qed.

(** X14.  The result of an operation does not depend on what runs
    beside it.  Issued together with any other operations on a client
    that holds no session, under any schedule, an operation that has
    finished returned or raised exactly what the same operation, awaited
    alone on such a client, makes of the answer the schedule delivered to
    it. *)
Theorem concurrent_result_is_sequential key os schedule i o res :
  os !! i = Some o ->
  tasks (exec schedule (spawn (mkAirtableClient key None) fresh_world os)) !! i
  = Some (Finished res) ->
  exists reply,
    Deliver i reply ∈ schedule /\
    res = (run (fun _ => reply) (invoke o) (mkAirtableClient key None) fresh_world).1.1.
Proof.
  intros Ho Hi.
  assert (Hts : tasks_of ([] ++ schedule) os
                  (tasks (exec schedule
                            (spawn (mkAirtableClient key None) fresh_world os)))).
  { apply exec_tasks; [done|]. cbn [spawn tasks]. split; [by rewrite length_fmap|].
    intros j o' t Ho' Ht. rewrite list_lookup_fmap, Ho' in Ht.
    cbn in Ht. by injection Ht as <-. }
  destruct Hts as [_ Hts]. destruct (Hts i o _ Ho Hi) as (reply & Hin & ->).
  exists reply. split; [done|]. by rewrite run_operation.
Qed.

Lemma concurrent_result_is_sequential_witness :
  let gone := Ok (mkResponse 404 "" None) in
  let fine := Ok (mkResponse 200 "" (Some (JDict [("bases", JList [])]))) in
  let schedule := [Start 0%nat; Start 1%nat; Deliver 1%nat gone; Deliver 0%nat fine] in
  exists reply,
    Deliver 0%nat reply ∈ schedule /\
    Ok (JList [])
    = (run (fun _ => reply) (invoke ListBases) demo_client fresh_world).1.1.
Proof.
  intros gone fine schedule.
  exact (concurrent_result_is_sequential "patKEY" [ListBases; ListTables "appX"]
           schedule 0%nat ListBases (Ok (JList [])) eq_refl eq_refl).
Defined.

(** ** Where an [AirtableError] comes from *)

Definition raises_AirtableError {A} (r : result A) : bool :=
  match r with
  | Exc e => is_AirtableError e
  | Ok _ => false
  end.

Lemma unwrap_not_normalized o response :
  raises_AirtableError (unwrap_of o response) = false.
Proof.
  destruct o; cbn [unwrap_of]; unfold unwrap_list, unwrap_created, json_of;
    destruct (decoded response) as [[| | | | | |kvs]|]; cbn; try done.
  destruct (dict_lookup "records" kvs) as [[| | | |s|xs|]|]; cbn; try done.
  - by destruct (py_position _ _ ≫= _).
  - by destruct (py_position _ _ ≫= _).
Qed.

(** X15.  The status alone decides whether an operation raises an
    [AirtableError]: on a 2xx response no operation does, whatever the
    body is; what it raises then, if anything, is an exception of the
    interpreter or of the decoder. *)
Theorem success_never_normalized o net self w response :
  consistent self w ->
  net (sent (run net (invoke o) self w).2) = Ok response ->
  is_success response = true ->
  raises_AirtableError (run net (invoke o) self w).1.1 = false.
Proof.
  intros Hc Hnet Hok. rewrite (operation_outcome net o self w response Hc Hnet).
  unfold checked. rewrite handle_error_success by done.
  apply unwrap_not_normalized.
Qed.

Lemma success_never_normalized_witness :
  let response := mkResponse 201 "" (Some (JDict [("records", JInt 7)])) in
  raises_AirtableError
    (run (always response) (invoke (CreateRecord "appA" "People" []))
         demo_client fresh_world).1.1 = false.
Proof.
  intros response.
  exact (success_never_normalized (CreateRecord "appA" "People" [])
           (always response) demo_client fresh_world response
           eq_refl eq_refl eq_refl).
Defined.
